(** * Product catalog: attribute codec and repository

    A shallow embedding of the [mapper], [store/product] and [server]
    packages of golang-grpc-mongodb-arbitrary-data, and the properties of
    the attribute codec and of the CRUD repository proved over it.

    Conventions of the embedding:
    - a Go [(T, error)] return of the repository's own functions, which
      return either [x, nil] or [nil, err], is a [result T]: [Ok x] or
      [Fail err]; an [error] that may be nil is an [option error];
    - a Go [map[string]V] is [gomap V]: [None] is the nil map, [Some m] an
      allocated one;
    - [range] over a map visits every entry once in an unspecified order: the
      functions that range take a [RangeOrder] and every theorem holds for
      all of them;
    - [float32] and [float64] are IEEE-754 bit patterns; the code only copies
      such values, it never computes with them;
    - [*models.Product] arguments that the repository writes through are
      locations of a heap; a dereference of an unallocated location (Go's nil
      pointer panic) makes the operation return [None];
    - the package-level function variables of [store/product] (the seams the
      tests replace) are the fields of the class [Seams], over an abstract
      state of the outside world. *)

From stdpp Require Import base strings pretty gmap list.

Local Open Scope string_scope.

(** ** Go values shared by all packages *)

Definition float32 : Type := Z.
Definition float64 : Type := Z.

(** The double quote character, for the [%s] verbs written between quotes. *)
Definition dquote : string := String (Ascii.ascii_of_nat 34) EmptyString.

(** [quoted s] is what [fmt.Sprintf] prints for [s] under a quoted [%s]. *)
Definition quoted (s : string) : string := dquote +:+ s +:+ dquote.

Definition gomap (V : Type) : Type := option (gmap string V).

(** The entries of a Go map; the nil map has none. *)
Definition entries {V} (m : gomap V) : gmap string V := default ∅ m.

(** An iteration order for [range]: some permutation of the entries. *)
Record RangeOrder : Type := {
  range_of : ∀ V : Type, gmap string V → list (string * V);
  range_perm : ∀ (V : Type) (m : gmap string V), range_of V m ≡ₚ map_to_list m
}.

Definition range {V} (ord : RangeOrder) (m : gomap V) : list (string * V) :=
  range_of ord V (entries m).

(** The order in which stdpp enumerates a map, and its reverse. *)
Definition ascending : RangeOrder :=
  {| range_of := λ V m, map_to_list m;
     range_perm := λ V m, reflexivity (map_to_list m) |}.

Definition descending : RangeOrder :=
  {| range_of := λ V m, reverse (map_to_list m);
     range_perm := λ V m, reverse_Permutation (map_to_list m) |}.

(** ** Errors *)

Module errors.

(** Modelled from the spec: the error values of the libraries, which are
    not part of the repository (section 7: an error wraps its underlying
    cause and a context). [New s] is [errors.New s] and [fmt.Errorf]
    without [%w]; [ErrNoDocuments] is the driver's sentinel
    [mongo.ErrNoDocuments], compared by identity in [Get];
    [WithMessage cause msg] is what [errors.Wrap] and [errors.Wrapf] of
    github.com/pkg/errors build. *)
Inductive error : Type :=
| New (s : string)
| ErrNoDocuments
| WithMessage (cause : error) (msg : string).

(** The method [Error]: the text the repository's tests compare, a wrap
    printing its message, a colon and the text of its cause. *)
Fixpoint Error (e : error) : string :=
  match e with
  | New s => s
  | ErrNoDocuments => "mongo: no documents in result"
  | WithMessage cause msg => msg +:+ ": " +:+ Error cause
  end.

(** [errors.Wrap], and [errors.Wrapf] once its message is formatted, on
    an error that is not nil, as at every call in the repository. *)
Definition Wrap (err : error) (message : string) : error :=
  WithMessage err message.

(** [errors.Unwrap]: the error directly wrapped, if any. *)
Definition Unwrap (e : error) : option error :=
  match e with
  | WithMessage cause _ => Some cause
  | _ => None
  end.

(** [errors.Cause]: the innermost error of a chain of wraps. *)
Fixpoint Cause (e : error) : error :=
  match e with
  | WithMessage cause _ => Cause cause
  | _ => e
  end.

#[global] Instance error_eq_dec : EqDecision error.
Proof. solve_decision. Defined.

End errors.
Export errors.

(** The result of a library call that yields either a value or an error. *)
Inductive result (A : Type) : Type :=
| Ok (a : A)
| Fail (e : error).
Arguments Ok {A} a.
Arguments Fail {A} e.

(** ** google.golang.org/protobuf/types/known/structpb *)

Module structpb.

(** Modelled from the spec: the type [structpb.Value] of the protobuf
    library, the wire representation of an attribute, which is not part of
    the repository (section 6: one of null, boolean, number, string, ordered
    list, nested mapping, recursively). *)
#[warnings="-register-all"]
Inductive Value : Type :=
| NullValue
| NumberValue (f : float64)
| StringValue (s : string)
| BoolValue (b : bool)
| StructValue (fields : gmap string Value)
| ListValue (values : list Value).

(** Modelled from the spec: the values of Go's [interface{}] an attribute
    may hold (section 3, dynamic value: the tagged union of the same six
    kinds), and [DOther ty] for a value of any other runtime type [ty],
    which has no wire variant. *)
#[warnings="-register-all"]
Inductive Dyn : Type :=
| DNil
| DBool (b : bool)
| DFloat64 (f : float64)
| DString (s : string)
| DMap (m : gmap string Dyn)
| DSlice (l : list Dyn)
| DOther (ty : string).

(** Modelled from the spec: the error of a conversion to the wire
    (section 7, UnsupportedValueKind). *)
Definition UnsupportedValueKind : error := New "UnsupportedValueKind".

(** Convert every value of a map, failing if any conversion fails. *)
Definition map_traverse {A B} (f : A → result B) (m : gmap string A)
    : result (gmap string B) :=
  map_fold (λ k x acc,
    match acc with
    | Fail e => Fail e
    | Ok m' => match f x with Ok y => Ok (<[k := y]> m') | Fail e => Fail e end
    end) (Ok ∅) m.

Fixpoint list_traverse {A B} (f : A → result B) (l : list A) : result (list B) :=
  match l with
  | [] => Ok []
  | x :: l' =>
      match f x with
      | Fail e => Fail e
      | Ok y => match list_traverse f l' with Ok ys => Ok (y :: ys) | Fail e => Fail e end
      end
  end.

(** Modelled from the spec: the method [AsInterface] of [structpb.Value] in
    the protobuf library, which is not part of the repository (section 4.1,
    ToDynamic: each wire variant goes to the dynamic value of the same
    tag, lists and structs recursively). *)
Fixpoint AsInterface (x : Value) : Dyn :=
  match x with
  | NullValue => DNil
  | NumberValue f => DFloat64 f
  | StringValue s => DString s
  | BoolValue b => DBool b
  | StructValue fields => DMap (AsInterface <$> fields)
  | ListValue values => DSlice (AsInterface <$> values)
  end.

(** Modelled from the spec: the function [structpb.NewValue] of the
    protobuf library, which is not part of the repository (section 4.1,
    FromDynamic: the inverse mapping, failing with UnsupportedValueKind on
    a runtime type that has no wire variant). *)
Fixpoint NewValue (v : Dyn) : result Value :=
  match v with
  | DNil => Ok NullValue
  | DBool b => Ok (BoolValue b)
  | DFloat64 f => Ok (NumberValue f)
  | DString s => Ok (StringValue s)
  | DMap m =>
      match map_traverse NewValue m with
      | Ok fields => Ok (StructValue fields)
      | Fail e => Fail e
      end
  | DSlice l =>
      match list_traverse NewValue l with
      | Ok values => Ok (ListValue values)
      | Fail e => Fail e
      end
  | DOther _ => Fail UnsupportedValueKind
  end.

(** The number of constructors of a wire value, for induction. *)
Fixpoint Value_size (x : Value) : nat :=
  match x with
  | StructValue fields => S (map_fold (λ _ y n, Value_size y + n) 0 fields)
  | ListValue values => S (foldr (λ y n, Value_size y + n) 0 values)
  | _ => 1
  end.

End structpb.
Export structpb.

(** ** store/product/models *)

Module models.

Record Product : Type := {
  Uuid : string;
  Name : string;
  Description : string;
  Price : float32;
  Attributes : gomap Dyn
}.

(** The zero value of the struct, what [var product models.Product]
    declares. *)
Definition zero : Product :=
  {| Uuid := EmptyString; Name := EmptyString; Description := EmptyString;
     Price := 0%Z; Attributes := None |}.

Definition set_Uuid (uuid : string) (p : Product) : Product :=
  {| Uuid := uuid; Name := Name p; Description := Description p;
     Price := Price p; Attributes := Attributes p |}.

Definition set_Attributes (attributes : gomap Dyn) (p : Product) : Product :=
  {| Uuid := Uuid p; Name := Name p; Description := Description p;
     Price := Price p; Attributes := attributes |}.

End models.

(** ** api/proto: the generated package productcatalog *)

Module productcatalog.

Record Product : Type := {
  Uuid : string;
  Name : string;
  Description : string;
  Price : float32;
  Attributes : gomap Value
}.

Definition set_Attributes (attributes : gomap Value) (p : Product) : Product :=
  {| Uuid := Uuid p; Name := Name p; Description := Description p;
     Price := Price p; Attributes := attributes |}.

Record GetProductRequest : Type := { GetUuid : string }.

Record DeleteProductRequest : Type := { DeleteUuid : string }.

Record DeleteProductResponse : Type := { Result : string }.

Record ListProductsRequest : Type := { }.

Record ListProductsResponse : Type := { Products : list Product }.

(** [proto.Equal] on two products: scalar fields equal and the same
    attribute entries; a nil map and an empty map are not told apart. *)
Definition Equal (x y : Product) : Prop :=
  Uuid x = Uuid y ∧ Name x = Name y ∧ Description x = Description y ∧
  Price x = Price y ∧ entries (Attributes x) = entries (Attributes y).

End productcatalog.

(** ** mapper *)

Module mapper.
Section mapper.

(** The order in which [range] visits the attributes. *)
Context (ord : RangeOrder).

(** The two conversions of the protobuf library the package calls:
    the method [AsInterface] and the package variable [structpbNewValue],
    which a test may replace. *)
Context (AsInterface : Value → Dyn).
Context (structpbNewValue : Dyn → result Value).

(** The loop of [ProductProtobufToProductModel]:
    [attributes[k] = p.AsInterface()] for every entry. *)
Definition to_model_loop (kvs : list (string * Value))
    (attributes : gmap string Dyn) : gmap string Dyn :=
  foldl (λ attributes kp, <[kp.1 := AsInterface kp.2]> attributes) attributes kvs.

Definition ProductProtobufToProductModel (product : productcatalog.Product)
    : result models.Product :=
  let dbProduct :=
    {| models.Uuid := productcatalog.Uuid product;
       models.Name := productcatalog.Name product;
       models.Description := productcatalog.Description product;
       models.Price := productcatalog.Price product;
       models.Attributes := None |} in
  let attributes := ∅ in
  let attributes :=
    to_model_loop (range ord (productcatalog.Attributes product)) attributes in
  let dbProduct := models.set_Attributes (Some attributes) dbProduct in
  Ok dbProduct.

(** The loop of [ProductModelToProductProtobuf]: it returns at the first
    attribute [structpbNewValue] rejects, with the error wrapped under the
    attribute's name. *)
Fixpoint to_protobuf_loop (kvs : list (string * Dyn))
    (attributes : gmap string Value) : result (gmap string Value) :=
  match kvs with
  | [] => Ok attributes
  | (k, p) :: kvs' =>
      match structpbNewValue p with
      | Fail err => Fail (Wrap err ("parsing attribute " +:+ quoted k))
      | Ok v => to_protobuf_loop kvs' (<[k := v]> attributes)
      end
  end.

Definition ProductModelToProductProtobuf (dbProduct : models.Product)
    : result productcatalog.Product :=
  let product :=
    {| productcatalog.Uuid := models.Uuid dbProduct;
       productcatalog.Name := models.Name dbProduct;
       productcatalog.Description := models.Description dbProduct;
       productcatalog.Price := models.Price dbProduct;
       productcatalog.Attributes := None |} in
  let attributes := ∅ in
  match to_protobuf_loop (range ord (models.Attributes dbProduct)) attributes with
  | Fail err => Fail err
  | Ok attributes =>
      let product := productcatalog.set_Attributes (Some attributes) product in
      Ok product
  end.

(** The loop of [ProductModelListToListProductsResponse]. *)
Fixpoint to_response_loop (dbProducts : list models.Product)
    (products : list productcatalog.Product)
    : result (list productcatalog.Product) :=
  match dbProducts with
  | [] => Ok products
  | dbProduct :: dbProducts' =>
      match ProductModelToProductProtobuf dbProduct with
      | Fail err => Fail err
      | Ok product => to_response_loop dbProducts' (products ++ [product])
      end
  end.

Definition ProductModelListToListProductsResponse (dbProducts : list models.Product)
    : result productcatalog.ListProductsResponse :=
  let products := [] in
  match to_response_loop dbProducts products with
  | Fail err => Fail err
  | Ok products => Ok {| productcatalog.Products := products |}
  end.

End mapper.
End mapper.

(** ** go.mongodb.org/mongo-driver/mongo: what the repository sees of it *)

Module mongo.

(** Modelled from the spec: the result types of the driver's insert, update
    and delete, which are not part of the repository; the repository discards
    every one of them. *)

Record InsertOneResult : Type := { }.

Record UpdateResult : Type := { MatchedCount : Z }.

Record DeleteResult : Type := { DeletedCount : Z }.

End mongo.

(** ** github.com/google/uuid *)

Module uuid.

(** The hexadecimal digit of the low four bits of [n]. *)
Definition hex_digit (n : N) : Ascii.ascii :=
  match String.get (N.to_nat (n mod 16)) "0123456789abcdef" with
  | Some c => c
  | None => Ascii.ascii_of_nat 48
  end.

(** The low [width] hexadecimal digits of [n], the highest first. *)
Fixpoint hex (width : nat) (n : N) : string :=
  match width with
  | 0 => EmptyString
  | Datatypes.S width => hex width (n / 16) +:+ String (hex_digit n) EmptyString
  end.

(** The 128 bits of a version 4 identifier: the bits drawn, with the
    high half of the seventh byte set to the version, 4, and the two
    highest bits of the ninth byte set to the variant, binary 10. *)
Definition version4 (random : N) : N :=
  let r := (random mod 2 ^ 128)%N in
  let r := N.lor (N.ldiff r (N.shiftl 15 76)) (N.shiftl 4 76) in
  N.lor (N.ldiff r (N.shiftl 3 62)) (N.shiftl 2 62).

(** Modelled from the spec: the function [uuid.NewString] the package
    variable [uuidProvider] is bound to, which is not part of the repository
    (section 4.2: a 128-bit random identifier rendered as text). The text is
    the 32 hexadecimal digits of the 128 bits of a version 4 identifier, in
    groups of 8, 4, 4, 4 and 12; [random] is what the random source
    yields. *)
Definition NewString (random : N) : string :=
  let r := version4 random in
  hex 8 (r / 2 ^ 96) +:+ "-" +:+ hex 4 (r / 2 ^ 80) +:+ "-" +:+
  hex 4 (r / 2 ^ 64) +:+ "-" +:+ hex 4 (r / 2 ^ 48) +:+ "-" +:+ hex 12 r.

End uuid.

(** ** store/product *)

Module product.

Definition collectionName : string := "products".

(** The values this package stores in a [bson.M]: a uuid, or the product
    a pointer refers to when the driver encodes it. *)
Inductive bsonValue : Type :=
| BString (s : string)
| BProduct (p : models.Product).

Abbreviation bsonM := (gmap string bsonValue).

(** The interface [Cursor]. [Decode] fills the product it is given and
    [Err] reads the cursor; [Next] and [Close] change it. *)
Class Cursor (C : Type) : Type := {
  Decode : C → models.Product → models.Product * option error;
  Err : C → option error;
  Close : C → option error * C;
  Next : C → bool * C
}.

(** The package variables, over the state [S] of everything outside the
    process (the collection, the source of uuids). A document is handed to
    the driver as it is when the call is made. *)
Class Seams (S C : Type) : Type := {
  uuidProvider : S → string * S;
  insertIntoCollection :
    models.Product → S → (option mongo.InsertOneResult * option error) * S;
  find : bsonM → S → (C * option error) * S;
  findOne : bsonM → models.Product → S → (models.Product * option error) * S;
  updateOne : bsonM → bsonM → S → (option mongo.UpdateResult * option error) * S;
  deleteOne : bsonM → S → (option mongo.DeleteResult * option error) * S
}.

(** One entry per call the package makes through a seam or on a cursor. *)
Inductive Call : Type :=
| CalledUuidProvider
| CalledInsertIntoCollection (document : models.Product)
| CalledFind (flt : bsonM)
| CalledFindOne (flt : bsonM)
| CalledUpdateOne (flt update : bsonM)
| CalledDeleteOne (flt : bsonM)
| CalledNext
| CalledDecode
| CalledErr
| CalledClose.

Definition loc : Type := nat.

(** The state an operation runs in: the products the process holds by
    pointer, the outside world, and the calls made so far. *)
Record World (S : Type) : Type := {
  heap : gmap loc models.Product;
  store : S;
  calls : list Call
}.
Arguments heap {S} _.
Arguments store {S} _.
Arguments calls {S} _.

Definition is_Close (c : Call) : bool :=
  match c with CalledClose => true | _ => false end.

Definition is_Insert (c : Call) : bool :=
  match c with CalledInsertIntoCollection _ => true | _ => false end.

(** How many of the [calls] satisfy [f]. *)
Definition count (f : Call → bool) (calls : list Call) : nat :=
  length (List.filter f calls).

Section product.

Context {S C : Type} `{!Cursor C} `{!Seams S C}.

(** Call a seam: run it on the outside world and record the call. *)
Definition call {A} (c : Call) (f : S → A * S) (w : World S) : A * World S :=
  let '(a, s) := f (store w) in
  (a, {| heap := heap w; store := s; calls := calls w ++ [c] |}).

(** Record a call on a cursor. *)
Definition note (c : Call) (w : World S) : World S :=
  {| heap := heap w; store := store w; calls := calls w ++ [c] |}.

(** A declared struct variable whose address is taken lives in the heap. *)
Definition alloc (p : models.Product) (w : World S) : loc * World S :=
  let l := fresh (dom (heap w)) in
  (l, {| heap := <[l := p]> (heap w); store := store w; calls := calls w |}).

Definition write (l : loc) (p : models.Product) (w : World S) : World S :=
  {| heap := <[l := p]> (heap w); store := store w; calls := calls w |}.

Definition Get (req : productcatalog.GetProductRequest) (w : World S)
    : result loc * World S :=
  let '(product, w) := alloc models.zero w in
  let flt : bsonM := {[ "uuid" := BString (productcatalog.GetUuid req) ]} in
  let '((p, err), w) := call (CalledFindOne flt) (findOne flt models.zero) w in
  let w := write product p w in
  match err with
  | Some ErrNoDocuments =>
      (Fail (New ("product with uuid " +:+ quoted (productcatalog.GetUuid req)
                    +:+ " does not exist")), w)
  | Some err =>
      (Fail (Wrap err ("getting product with uuid "
                         +:+ quoted (productcatalog.GetUuid req))), w)
  | None => (Ok product, w)
  end.

Definition Create (newProduct : loc) (w : World S) : option (result loc * World S) :=
  let '(uuid, w) := call CalledUuidProvider uuidProvider w in
  p ← heap w !! newProduct;
  let p := models.set_Uuid uuid p in
  let w := write newProduct p w in
  let '((_, err), w) :=
    call (CalledInsertIntoCollection p) (insertIntoCollection p) w in
  match err with
  | Some err => Some (Fail (Wrap err "inserting product"), w)
  | None => Some (Ok newProduct, w)
  end.

Definition Update (productToUpdate : loc) (w : World S)
    : option (result loc * World S) :=
  p ← heap w !! productToUpdate;
  let flt : bsonM := {[ "uuid" := BString (models.Uuid p) ]} in
  let update : bsonM := {[ "$set" := BProduct p ]} in
  let '((_, err), w) := call (CalledUpdateOne flt update) (updateOne flt update) w in
  match err with
  | Some err =>
      Some (Fail (Wrap err ("updating product with uuid "
                              +:+ quoted (models.Uuid p))), w)
  | None => Some (Ok productToUpdate, w)
  end.

Definition Delete (req : productcatalog.DeleteProductRequest) (w : World S)
    : result productcatalog.DeleteProductResponse * World S :=
  let flt : bsonM := {[ "uuid" := BString (productcatalog.DeleteUuid req) ]} in
  let '((_, err), w) := call (CalledDeleteOne flt) (deleteOne flt) w in
  match err with
  | Some err =>
      (Fail (Wrap err ("deleting product with uuid "
                         +:+ quoted (productcatalog.DeleteUuid req))), w)
  | None => (Ok {| productcatalog.Result := "success" |}, w)
  end.

(** The [for cur.Next(ctx)] loop of [List], run for at most [fuel]
    calls of [Next]; [None] when the cursor has not said it is exhausted
    by then. *)
Fixpoint List_loop (fuel : nat) (cur : C) (products : list loc) (w : World S)
    : option (result (list loc) * C * World S) :=
  match fuel with
  | 0 => None
  | Datatypes.S fuel =>
      let '(more, cur) := Next cur in
      let w := note CalledNext w in
      if more then
        let '(product, w) := alloc models.zero w in
        let '(p, err) := Decode cur models.zero in
        let w := write product p (note CalledDecode w) in
        match err with
        | Some err => Some (Fail (Wrap err "decoding product"), cur, w)
        | None => List_loop fuel cur (products ++ [product]) w
        end
      else Some (Ok products, cur, w)
  end.

(** What [List] does between [defer cur.Close(ctx)] and its return. *)
Definition List_body (fuel : nat) (cur : C) (w : World S)
    : option (result (list loc) * C * World S) :=
  let products := [] in
  match List_loop fuel cur products w with
  | None => None
  | Some (Fail err, cur, w) => Some (Fail err, cur, w)
  | Some (Ok products, cur, w) =>
      let w := note CalledErr w in
      match Err cur with
      | Some err => Some (Fail (Wrap err "cursor error"), cur, w)
      | None => Some (Ok products, cur, w)
      end
  end.

Definition List (fuel : nat) (req : productcatalog.ListProductsRequest)
    (w : World S) : option (result (list loc) * World S) :=
  let '((cur, err), w) := call (CalledFind ∅) (find ∅) w in
  match err with
  | Some err => Some (Fail (Wrap err "finding products"), w)
  | None =>
      (* defer cur.Close(ctx): runs when the body returns *)
      match List_body fuel cur w with
      | None => None
      | Some (r, cur, w) =>
          let '(_, _) := Close cur in
          Some (r, note CalledClose w)
      end
  end.

End product.
End product.

(** ** The test doubles of store/product/product_test.go *)

Module mock.

(** The type [MockCursor] of the test file. *)
Record MockCursor : Type := {
  data : list models.Product;
  index : Z;
  decodeErr : option error;
  err : option error
}.

Definition MockCursor_Next (m : MockCursor) : bool * MockCursor :=
  if bool_decide (index m < Z.of_nat (length (data m)))%Z then
    (true, {| data := data m; index := (index m + 1)%Z;
              decodeErr := decodeErr m; err := err m |})
  else (false, m).

Definition MockCursor_Decode (m : MockCursor) (val : models.Product)
    : models.Product * option error :=
  match decodeErr m with
  | Some e => (val, Some e)
  | None =>
      if bool_decide (index m ≤ 0 ∨ index m > Z.of_nat (length (data m)))%Z then
        (val, Some (New "No data to decode"))
      else
        match data m !! Z.to_nat (index m - 1) with
        | Some product => (product, None)
        | None => (val, Some (New "No data to decode"))
        end
  end.

Definition MockCursor_Err (m : MockCursor) : option error := err m.

Definition MockCursor_Close (m : MockCursor) : option error * MockCursor :=
  (None, m).

#[global] Instance MockCursor_Cursor : product.Cursor MockCursor :=
  {| product.Decode := MockCursor_Decode;
     product.Err := MockCursor_Err;
     product.Close := MockCursor_Close;
     product.Next := MockCursor_Next |}.

(** What a test case assigns to the package variables: every seam answers
    with a value fixed in advance, whatever it is called with. *)
Record Mock : Type := {
  mockUuidProvider : string;
  mockInsertIntoCollection : option mongo.InsertOneResult * option error;
  mockFind : MockCursor * option error;
  mockFindOne : models.Product → models.Product * option error;
  mockUpdateOne : option mongo.UpdateResult * option error;
  mockDeleteOne : option mongo.DeleteResult * option error
}.

#[global] Instance Mock_Seams : product.Seams Mock MockCursor :=
  {| product.uuidProvider := λ s, (mockUuidProvider s, s);
     product.insertIntoCollection := λ _ s, (mockInsertIntoCollection s, s);
     product.find := λ _ s, (mockFind s, s);
     product.findOne := λ _ p s, (mockFindOne s p, s);
     product.updateOne := λ _ _ s, (mockUpdateOne s, s);
     product.deleteOne := λ _ s, (mockDeleteOne s, s) |}.

Definition noCursor : MockCursor :=
  {| data := []; index := 0; decodeErr := None; err := None |}.

(** The seams of the happy paths of the tests: uuid [uuid], every call
    succeeds, nothing is found. *)
Definition quiet : Mock :=
  {| mockUuidProvider := "uuid";
     mockInsertIntoCollection := (Some mongo.Build_InsertOneResult, None);
     mockFind := (noCursor, None);
     mockFindOne := λ p, (p, Some ErrNoDocuments);
     mockUpdateOne := (Some {| mongo.MatchedCount := 0 |}, None);
     mockDeleteOne := (None, None) |}.

End mock.

(** ** The document store *)

Module memstore.

(** Modelled from the spec: the documents of the store collaborator of
    section 6, the MongoDB driver and server, which are not part of the
    repository. A stored field is the identifier the store gives every
    document, or one of the kinds of field a product is encoded to;
    attribute values are stored as they are given. *)
Inductive Field : Type :=
| FObjectID (n : nat)
| FString (s : string)
| FFloat (f : float32)
| FAttributes (m : gomap Dyn).

Abbreviation Doc := (gmap string Field).

(** The encoding of a product under the [bson] tags of
    [models.Product]: the five fields, none of them omitted when zero. *)
Definition marshal (p : models.Product) : Doc :=
  {[ "uuid" := FString (models.Uuid p);
     "name" := FString (models.Name p);
     "description" := FString (models.Description p);
     "price" := FFloat (models.Price p);
     "attributes" := FAttributes (models.Attributes p) ]}.

Definition string_field (d : Doc) (key : string) (old : string) : result string :=
  match d !! key with
  | None => Ok old
  | Some (FString s) => Ok s
  | Some _ => Fail (New ("cannot decode " +:+ key))
  end.

Definition float_field (d : Doc) (key : string) (old : float32) : result float32 :=
  match d !! key with
  | None => Ok old
  | Some (FFloat f) => Ok f
  | Some _ => Fail (New ("cannot decode " +:+ key))
  end.

Definition attributes_field (d : Doc) (key : string) (old : gomap Dyn)
    : result (gomap Dyn) :=
  match d !! key with
  | None => Ok old
  | Some (FAttributes m) => Ok m
  | Some _ => Fail (New ("cannot decode " +:+ key))
  end.

(** Modelled from the spec: the driver's decoding of a document into a
    product: a field the document has replaces the product's, a field it
    lacks leaves it as it is. *)
Definition unmarshal (d : Doc) (p : models.Product) : models.Product * option error :=
  match string_field d "uuid" (models.Uuid p),
        string_field d "name" (models.Name p),
        string_field d "description" (models.Description p),
        float_field d "price" (models.Price p),
        attributes_field d "attributes" (models.Attributes p) with
  | Ok uuid, Ok name, Ok description, Ok price, Ok attributes =>
      ({| models.Uuid := uuid; models.Name := name;
          models.Description := description; models.Price := price;
          models.Attributes := attributes |}, None)
  | Fail e, _, _, _, _ | _, Fail e, _, _, _ | _, _, Fail e, _, _
  | _, _, _, Fail e, _ | _, _, _, _, Fail e => (p, Some e)
  end.

(** Modelled from the spec: the store's matching. A document matches a
    filter when it has every string the filter asks for; the empty filter
    matches every document. *)
Definition matches (flt : product.bsonM) (d : Doc) : bool :=
  forallb (λ kv,
    match kv.2, d !! kv.1 with
    | product.BString s, Some (FString s') => bool_decide (s = s')
    | _, _ => false
    end) (map_to_list flt).

Fixpoint find_first (flt : product.bsonM) (docs : list Doc) : option Doc :=
  match docs with
  | [] => None
  | d :: docs' => if matches flt d then Some d else find_first flt docs'
  end.

(** Apply [f] to the first document that matches, if there is one. *)
Fixpoint update_first (flt : product.bsonM) (f : Doc → Doc) (docs : list Doc)
    : option (list Doc) :=
  match docs with
  | [] => None
  | d :: docs' =>
      if matches flt d then Some (f d :: docs')
      else cons d <$> update_first flt f docs'
  end.

Fixpoint delete_first (flt : product.bsonM) (docs : list Doc) : option (list Doc) :=
  match docs with
  | [] => None
  | d :: docs' =>
      if matches flt d then Some docs'
      else cons d <$> delete_first flt docs'
  end.

(** The collection, the number of documents ever inserted and the number
    of uuids handed out so far. *)
Record Store : Type := {
  docs : list Doc;
  inserted : nat;
  issued : nat
}.

(** A cursor over the documents a [find] selected. *)
Record MemCursor : Type := {
  current : option Doc;
  pending : list Doc
}.

#[global] Instance MemCursor_Cursor : product.Cursor MemCursor :=
  {| product.Decode := λ c p,
       match current c with
       | Some d => unmarshal d p
       | None => (p, Some (New "no current document"))
       end;
     product.Err := λ _, None;
     product.Close := λ c, (None, {| current := None; pending := [] |});
     product.Next := λ c,
       match pending c with
       | d :: rest => (true, {| current := Some d; pending := rest |})
       | [] => (false, {| current := None; pending := [] |})
       end |}.

Definition uuid_of (n : nat) : string := "uuid-" +:+ pretty n.

(** Modelled from the spec: the store collaborator of section 6, the
    MongoDB driver behind the package variables, which is not part of the
    repository: a one-document insert, a lookup, an update and a delete of
    the first document that matches a filter, and a find that yields a
    cursor; the lookup reports [ErrNoDocuments] when nothing matches, the
    update and the delete report success and change nothing then. An
    update [$set] replaces the fields it names and keeps the others. Values
    are stored as they are given. The source of uuids never repeats one. *)
#[global] Instance Store_Seams : product.Seams Store MemCursor :=
  {| product.uuidProvider := λ s,
       (uuid_of (issued s),
        {| docs := docs s; inserted := inserted s; issued := Datatypes.S (issued s) |});
     product.insertIntoCollection := λ p s,
       let d := <[ "_id" := FObjectID (inserted s) ]> (marshal p) in
       ((Some mongo.Build_InsertOneResult, None),
        {| docs := docs s ++ [d]; inserted := Datatypes.S (inserted s);
           issued := issued s |});
     product.find := λ flt s,
       (({| current := None; pending := List.filter (matches flt) (docs s) |}, None), s);
     product.findOne := λ flt p s,
       match find_first flt (docs s) with
       | Some d => (unmarshal d p, s)
       | None => ((p, Some ErrNoDocuments), s)
       end;
     product.updateOne := λ flt update s,
       match update !! "$set" with
       | Some (product.BProduct p) =>
           match update_first flt (λ d, marshal p ∪ d) (docs s) with
           | Some docs' =>
               ((Some {| mongo.MatchedCount := 1 |}, None),
                {| docs := docs'; inserted := inserted s; issued := issued s |})
           | None => ((Some {| mongo.MatchedCount := 0 |}, None), s)
           end
       | _ => ((None, Some (New "invalid update document")), s)
       end;
     product.deleteOne := λ flt s,
       match delete_first flt (docs s) with
       | Some docs' =>
           ((Some {| mongo.DeletedCount := 1 |}, None),
            {| docs := docs'; inserted := inserted s; issued := issued s |})
       | None => ((Some {| mongo.DeletedCount := 0 |}, None), s)
       end |}.

Definition empty : Store := {| docs := []; inserted := 0; issued := 0 |}.

End memstore.

(** ** server *)

Module server.
Section server.

Context {S C : Type} `{!product.Cursor C} `{!product.Seams S C}.
Context (ord : RangeOrder).
Context (AsInterface : Value → Dyn) (structpbNewValue : Dyn → result Value).

(** The model a mapper call returns by pointer is a new object of the
    heap; the model behind a pointer the repository returned is read from
    it. *)
Definition CreateProduct (in_ : productcatalog.Product) (w : product.World S)
    : option (result productcatalog.Product * product.World S) :=
  match mapper.ProductProtobufToProductModel ord AsInterface in_ with
  | Fail err => Some (Fail err, w)
  | Ok newProduct =>
      let '(newProduct, w) := product.alloc newProduct w in
      '(r, w) ← product.Create newProduct w;
      match r with
      | Fail err => Some (Fail err, w)
      | Ok createdProduct =>
          p ← product.heap w !! createdProduct;
          Some (mapper.ProductModelToProductProtobuf ord structpbNewValue p, w)
      end
  end.

(** The handler [GetProduct]: it wraps whatever error [product.Get]
    returns, and converts the product found to its wire form. *)
Definition GetProduct (req : productcatalog.GetProductRequest) (w : product.World S)
    : option (result productcatalog.Product * product.World S) :=
  let '(r, w) := product.Get req w in
  match r with
  | Fail err =>
      Some (Fail (Wrap err ("getting product with uuid "
                              +:+ productcatalog.GetUuid req)), w)
  | Ok l =>
      p ← product.heap w !! l;
      Some (mapper.ProductModelToProductProtobuf ord structpbNewValue p, w)
  end.

Definition UpdateProduct (in_ : productcatalog.Product) (w : product.World S)
    : option (result productcatalog.Product * product.World S) :=
  match mapper.ProductProtobufToProductModel ord AsInterface in_ with
  | Fail err => Some (Fail err, w)
  | Ok productToUpdate =>
      let '(productToUpdate, w) := product.alloc productToUpdate w in
      '(r, w) ← product.Update productToUpdate w;
      match r with
      | Fail err => Some (Fail err, w)
      | Ok updatedProduct =>
          p ← product.heap w !! updatedProduct;
          Some (mapper.ProductModelToProductProtobuf ord structpbNewValue p, w)
      end
  end.

Definition DeleteProduct (req : productcatalog.DeleteProductRequest)
    (w : product.World S)
    : result productcatalog.DeleteProductResponse * product.World S :=
  let '(r, w) := product.Delete req w in
  match r with
  | Fail err =>
      (Fail (Wrap err ("deleting product with uuid "
                         +:+ productcatalog.DeleteUuid req)), w)
  | Ok resp => (Ok resp, w)
  end.

Definition ListProducts (fuel : nat) (req : productcatalog.ListProductsRequest)
    (w : product.World S)
    : option (result productcatalog.ListProductsResponse * product.World S) :=
  '(r, w) ← product.List fuel req w;
  match r with
  | Fail err => Some (Fail (Wrap err "listing products"), w)
  | Ok products =>
      dbProducts ← mapM (λ l, product.heap w !! l) products;
      Some (mapper.ProductModelListToListProductsResponse ord structpbNewValue
              dbProducts, w)
  end.

End server.
End server.

(** ** config *)

Module config.

Record Config : Type := {
  MongodbDatabase : string;
  MongodbHostName : string;
  MongodbPort : Z;
  MongodbTestDatabase : string;
  MongodbTestHostName : string;
  MongodbTestPort : Z;
  GrpcServerṔort : Z
}.

(** What [new(Config)] points to. *)
Definition zero : Config :=
  {| MongodbDatabase := EmptyString; MongodbHostName := EmptyString;
     MongodbPort := 0; MongodbTestDatabase := EmptyString;
     MongodbTestHostName := EmptyString; MongodbTestPort := 0;
     GrpcServerṔort := 0 |}.

(** The two package variables, over the environment [E] of the process:
    [godotenvLoad] takes the file names and may change the environment,
    [envconfigProcess] takes a prefix and fills the configuration it is
    given a pointer to. *)
Class Seams (E : Type) : Type := {
  godotenvLoad : list string → E → option error * E;
  envconfigProcess : string → Config → E → (Config * option error) * E
}.

Section config.

Context {E : Type} `{!Seams E}.

Definition Read (envFilePath : string) (env : E) : result Config * E :=
  let '(err, env) := godotenvLoad [envFilePath] env in
  match err with
  | Some err => (Fail (Wrap err "loading env vars"), env)
  | None =>
      let config := zero in
      let '((config, err), env) := envconfigProcess EmptyString config env in
      match err with
      | Some err => (Fail (Wrap err "processing env vars"), env)
      | None => (Ok config, env)
      end
  end.

End config.
End config.

(** * Vocabulary of the properties, and examples *)

(** The value a successful conversion gives. *)
Definition converted (conv : Dyn → result Value) (p : Dyn) : Value :=
  match conv p with Ok v => v | Fail _ => NullValue end.

(** An attribute of [dbProduct] that [conv] rejects. *)
Definition unconvertible (conv : Dyn → result Value) (dbProduct : models.Product)
    (k : string) (e : error) : Prop :=
  ∃ p, entries (models.Attributes dbProduct) !! k = Some p ∧ conv p = Fail e.

(** The products used as examples: the one the integration test creates,
    and the same one with no attribute map at all. *)
Definition testProduct : productcatalog.Product :=
  {| productcatalog.Uuid := EmptyString;
     productcatalog.Name := "Test Product Name";
     productcatalog.Description := "Test Product Description";
     productcatalog.Price := 0x411FD70A%Z;
     productcatalog.Attributes :=
       Some {[ "color" := StringValue "blue"; "size" := NumberValue 0x4028000000000000%Z ]} |}.

Definition bareProduct : productcatalog.Product :=
  productcatalog.set_Attributes None testProduct.

(** The model the mapper tests convert, with one attribute. *)
Definition testModel : models.Product :=
  {| models.Uuid := "uuid"; models.Name := "name";
     models.Description := "description"; models.Price := 0x3F800000%Z;
     models.Attributes := Some {[ "color" := DString "blue" ]} |}.

(** The replacement of [structpbNewValue] in the mapper tests. *)
Definition mockStructpbNewValue (v : Dyn) : result Value := Fail (New "random error").

(** The error [Get] returns when no document has the uuid. *)
Definition NotFound (uuid : string) : error :=
  New ("product with uuid " +:+ quoted uuid +:+ " does not exist").

(** A state with the given heap and outside world, before any call. *)
Definition boot {S} (h : gmap product.loc models.Product) (s : S) : product.World S :=
  {| product.heap := h; product.store := s; product.calls := [] |}.

Section cursor_behaviour.

Context {C : Type} `{!product.Cursor C}.

(** [produces c ps c']: from state [c] the cursor hands out documents
    that decode, without error, to the products [ps], and is then in
    state [c']. *)
Inductive produces : C → list models.Product → C → Prop :=
| produces_nil c : produces c [] c
| produces_cons c c1 p ps c' :
    product.Next c = (true, c1) →
    product.Decode c1 models.zero = (p, None) →
    produces c1 ps c' →
    produces c (p :: ps) c'.

(** Whether the iteration over the cursor ends within [fuel] calls of
    [Next], by exhaustion or by a document that does not decode. *)
Fixpoint halts (fuel : nat) (cur : C) : bool :=
  match fuel with
  | 0 => false
  | Datatypes.S fuel =>
      let '(more, cur) := product.Next cur in
      if more then
        match (product.Decode cur models.zero).2 with
        | Some _ => true
        | None => halts fuel cur
        end
      else true
  end.

End cursor_behaviour.

(** The cursors and seams of the test cases of [TestList], [TestGet],
    [TestCreate] and [TestDelete]. *)
Definition randomError : error := New "random error".

Definition oneProduct : list models.Product := [testModel].

Definition cursorDecodeError : mock.MockCursor :=
  {| mock.data := oneProduct; mock.index := 0;
     mock.decodeErr := Some randomError; mock.err := None |}.

Definition cursorError : mock.MockCursor :=
  {| mock.data := oneProduct; mock.index := 0;
     mock.decodeErr := None; mock.err := Some randomError |}.

Definition cursorHappy : mock.MockCursor :=
  {| mock.data := oneProduct; mock.index := 0;
     mock.decodeErr := None; mock.err := None |}.

Definition withFind (r : mock.MockCursor * option error) (m : mock.Mock) : mock.Mock :=
  {| mock.mockUuidProvider := mock.mockUuidProvider m;
     mock.mockInsertIntoCollection := mock.mockInsertIntoCollection m;
     mock.mockFind := r;
     mock.mockFindOne := mock.mockFindOne m;
     mock.mockUpdateOne := mock.mockUpdateOne m;
     mock.mockDeleteOne := mock.mockDeleteOne m |}.

Definition withFindOne (f : models.Product → models.Product * option error)
    (m : mock.Mock) : mock.Mock :=
  {| mock.mockUuidProvider := mock.mockUuidProvider m;
     mock.mockInsertIntoCollection := mock.mockInsertIntoCollection m;
     mock.mockFind := mock.mockFind m;
     mock.mockFindOne := f;
     mock.mockUpdateOne := mock.mockUpdateOne m;
     mock.mockDeleteOne := mock.mockDeleteOne m |}.

Definition withInsert (r : option mongo.InsertOneResult * option error)
    (m : mock.Mock) : mock.Mock :=
  {| mock.mockUuidProvider := mock.mockUuidProvider m;
     mock.mockInsertIntoCollection := r;
     mock.mockFind := mock.mockFind m;
     mock.mockFindOne := mock.mockFindOne m;
     mock.mockUpdateOne := mock.mockUpdateOne m;
     mock.mockDeleteOne := mock.mockDeleteOne m |}.

Definition withDelete (r : option mongo.DeleteResult * option error)
    (m : mock.Mock) : mock.Mock :=
  {| mock.mockUuidProvider := mock.mockUuidProvider m;
     mock.mockInsertIntoCollection := mock.mockInsertIntoCollection m;
     mock.mockFind := mock.mockFind m;
     mock.mockFindOne := mock.mockFindOne m;
     mock.mockUpdateOne := mock.mockUpdateOne m;
     mock.mockDeleteOne := r |}.

Definition getUuid : productcatalog.GetProductRequest :=
  {| productcatalog.GetUuid := "uuid" |}.

Definition deleteUuid : productcatalog.DeleteProductRequest :=
  {| productcatalog.DeleteUuid := "uuid" |}.

Definition listAll : productcatalog.ListProductsRequest :=
  productcatalog.Build_ListProductsRequest.

(** A record with a uuid and nothing else, and a store that holds the
    document of [testModel], which has that uuid. *)
Definition blankModel : models.Product := models.set_Uuid "uuid" models.zero.

Definition stocked : memstore.Store :=
  {| memstore.docs := [ <[ "_id" := memstore.FObjectID 0 ]> (memstore.marshal testModel) ];
     memstore.inserted := 1;
     memstore.issued := 0 |}.

(** What the integration test expects back from the creation of
    [testProduct] on an empty store. *)
Definition createdProduct : productcatalog.Product :=
  {| productcatalog.Uuid := "uuid-0";
     productcatalog.Name := productcatalog.Name testProduct;
     productcatalog.Description := productcatalog.Description testProduct;
     productcatalog.Price := productcatalog.Price testProduct;
     productcatalog.Attributes := productcatalog.Attributes testProduct |}.

(** A model with one attribute that has a wire form and one that has
    none, and a list that holds it after one that converts. *)
Definition mixedModel : models.Product :=
  {| models.Uuid := "uuid2"; models.Name := "name2";
     models.Description := "description2"; models.Price := 0x41400000%Z;
     models.Attributes :=
       Some {[ "color" := DString "red"; "handle" := DOther "chan int" ]} |}.

Definition twoModels : list models.Product := [testModel; mixedModel].

(** The wire form of [testModel]. *)
Definition testModelWire : productcatalog.Product :=
  {| productcatalog.Uuid := "uuid"; productcatalog.Name := "name";
     productcatalog.Description := "description";
     productcatalog.Price := 0x3F800000%Z;
     productcatalog.Attributes := Some {[ "color" := StringValue "blue" ]} |}.

(** The cursor a test builds over [data], before any call. *)
Definition cursorOver (data : list models.Product) (decodeErr err : option error)
    : mock.MockCursor :=
  {| mock.data := data; mock.index := 0; mock.decodeErr := decodeErr; mock.err := err |}.

(** The calls of [n] turns of the loop of [List] that decode. *)
Definition turns (n : nat) : list product.Call :=
  mjoin (replicate n [product.CalledNext; product.CalledDecode]).

Definition withUpdate (r : option mongo.UpdateResult * option error)
    (m : mock.Mock) : mock.Mock :=
  {| mock.mockUuidProvider := mock.mockUuidProvider m;
     mock.mockInsertIntoCollection := mock.mockInsertIntoCollection m;
     mock.mockFind := mock.mockFind m;
     mock.mockFindOne := mock.mockFindOne m;
     mock.mockUpdateOne := r;
     mock.mockDeleteOne := mock.mockDeleteOne m |}.

(** The environment of the tests of [config]: what each of the two package
    variables answers, and the names of the files loaded so far. *)
Record TestEnv : Type := {
  loadAnswer : option error;
  processAnswer : config.Config * option error;
  loaded : list string
}.

#[global] Instance TestEnv_Seams : config.Seams TestEnv :=
  {| config.godotenvLoad := λ names env,
       (loadAnswer env,
        {| loadAnswer := loadAnswer env; processAnswer := processAnswer env;
           loaded := (loaded env ++ names)%list |});
     config.envconfigProcess := λ _ _ env, (processAnswer env, env) |}.

Definition localConfig : config.Config :=
  {| config.MongodbDatabase := "catalog"; config.MongodbHostName := "localhost";
     config.MongodbPort := 27017; config.MongodbTestDatabase := "catalog_test";
     config.MongodbTestHostName := "localhost"; config.MongodbTestPort := 27018;
     config.GrpcServerṔort := 4444 |}.

(** The seams of a test with another answer of [uuidProvider]. *)
Definition withUuid (u : string) (m : mock.Mock) : mock.Mock :=
  {| mock.mockUuidProvider := u;
     mock.mockInsertIntoCollection := mock.mockInsertIntoCollection m;
     mock.mockFind := mock.mockFind m;
     mock.mockFindOne := mock.mockFindOne m;
     mock.mockUpdateOne := mock.mockUpdateOne m;
     mock.mockDeleteOne := mock.mockDeleteOne m |}.

(** A record that has the first uuid of the document store and nothing
    else. *)
Definition blankFirst : models.Product := models.set_Uuid "uuid-0" models.zero.

(** A collection with one document, which has the uuid of [testModel],
    the identifier the store gave it, and a field that is not one of the
    record's: the stock-keeping unit another program wrote there. *)
Definition labelled : memstore.Store :=
  {| memstore.docs :=
       [ <[ "sku" := memstore.FString "A-1" ]>
           (<[ "_id" := memstore.FObjectID 0 ]> (memstore.marshal testModel)) ];
     memstore.inserted := 1;
     memstore.issued := 0 |}.

(** * Properties *)

(** ** Ranging over a map *)

Lemma range_NoDup {V} (ord : RangeOrder) (m : gomap V) : NoDup (range ord m).*1.
Proof.
  unfold range. rewrite (range_perm ord V (entries m)).
  apply NoDup_fst_map_to_list.
Qed.

Lemma range_to_map {V} (ord : RangeOrder) (m : gomap V) :
  list_to_map (range ord m) = entries m.
Proof.
  unfold range.
  rewrite (list_to_map_proper _ (map_to_list (entries m))).
  - apply list_to_map_to_list.
  - rewrite (range_perm ord V (entries m)). apply NoDup_fst_map_to_list.
  - apply range_perm.
Qed.

Lemma elem_of_range {V} (ord : RangeOrder) (m : gomap V) k v :
  (k, v) ∈ range ord m ↔ entries m !! k = Some v.
Proof.
  unfold range. rewrite (range_perm ord V (entries m)).
  apply elem_of_map_to_list.
Qed.

(** Storing [f] of every entry of a duplicate-free list, in any order, gives
    the map of the list under [f], over what the map held. *)
Lemma foldl_insert_fmap {A B} (f : A → B) (kvs : list (string * A))
    (acc : gmap string B) :
  NoDup kvs.*1 →
  foldl (λ a kp, <[kp.1 := f kp.2]> a) acc kvs = (f <$> list_to_map kvs) ∪ acc.
Proof.
  revert acc. induction kvs as [|[k v] kvs IH]; intros acc Hnd.
  - simpl. by rewrite fmap_empty, (left_id_L ∅ (∪)).
  - rewrite fmap_cons in Hnd. apply NoDup_cons in Hnd as [Hk Hnd].
    cbn [foldl list_to_map foldr fst snd uncurry].
    rewrite IH by done. rewrite fmap_insert.
    rewrite <- insert_union_l. symmetry. apply insert_union_r.
    rewrite lookup_fmap. apply not_elem_of_list_to_map_1 in Hk.
    simpl in Hk. by rewrite Hk.
Qed.

(** ** The codec of the protobuf library, as modelled *)

Lemma map_traverse_fmap_Ok {A B} (f : B → result A) (g : A → B) (m : gmap string A) :
  map_Forall (λ _ x, f (g x) = Ok x) m →
  map_traverse f (g <$> m) = Ok m.
Proof.
  unfold map_traverse. rewrite map_fold_fmap.
  induction m as [|k x m Hk Hfirst IH] using map_first_key_ind; intros Hall.
  - by rewrite map_fold_empty.
  - rewrite map_fold_insert_first_key by done.
    apply map_Forall_insert in Hall as [Hx Hall]; [|done].
    rewrite IH by done. simpl. by rewrite Hx.
Qed.

Lemma list_traverse_fmap_Ok {A B} (f : B → result A) (g : A → B) (l : list A) :
  Forall (λ x, f (g x) = Ok x) l →
  list_traverse f (g <$> l) = Ok l.
Proof.
  induction 1 as [|x l Hx _ IH]; csimpl; [done|]. by rewrite Hx, IH.
Qed.

Lemma Value_size_field (fields : gmap string Value) k x :
  fields !! k = Some x → Value_size x < Value_size (StructValue fields).
Proof.
  simpl. induction fields as [|k' y m Hk Hfirst IH] using map_first_key_ind.
  - by rewrite lookup_empty.
  - rewrite map_fold_insert_first_key by done. intros Hl.
    apply lookup_insert_Some in Hl as [[-> ->]|[_ Hl]]; [lia|].
    specialize (IH Hl). lia.
Qed.

Lemma Value_size_element (values : list Value) x :
  x ∈ values → Value_size x < Value_size (ListValue values).
Proof.
  simpl. induction 1 as [|y z l _ IH]; simpl; lia.
Qed.

(** Induction on wire values, with the hypothesis for every field of a
    struct and every element of a list. *)
Lemma Value_nested_ind (P : Value → Prop) :
  P NullValue →
  (∀ f, P (NumberValue f)) →
  (∀ s, P (StringValue s)) →
  (∀ b, P (BoolValue b)) →
  (∀ fields, map_Forall (λ _, P) fields → P (StructValue fields)) →
  (∀ values, Forall P values → P (ListValue values)) →
  ∀ x, P x.
Proof.
  intros Hnull Hnum Hstr Hbool Hstruct Hlist x.
  remember (Value_size x) as n eqn:Hn. revert x Hn.
  induction (lt_wf n) as [n _ IH]; intros x ->.
  destruct x as [| | | |fields|values]; [done..| |].
  - apply Hstruct. intros k y Hk.
    eapply IH; [|done]. by eapply Value_size_field.
  - apply Hlist. apply Forall_forall. intros y Hy.
    eapply IH; [|done]. by apply Value_size_element.
Qed.

(** Under the modelled library, every wire value comes back from its
    dynamic form unchanged. *)
Lemma NewValue_AsInterface (x : Value) : NewValue (AsInterface x) = Ok x.
Proof.
  induction x as [| | | |fields IH|values IH] using Value_nested_ind; simpl; try done.
  - by rewrite map_traverse_fmap_Ok.
  - by rewrite list_traverse_fmap_Ok.
Qed.

(** ** mapper: the two loops *)

Section mapper_loops.

Context (ord : RangeOrder).
Context (AsInterface : Value → Dyn) (structpbNewValue : Dyn → result Value).

Lemma to_model_loop_range (m : gomap Value) :
  mapper.to_model_loop AsInterface (range ord m) ∅ = AsInterface <$> entries m.
Proof.
  unfold mapper.to_model_loop.
  rewrite foldl_insert_fmap by apply range_NoDup.
  by rewrite range_to_map, (right_id_L ∅ (∪)).
Qed.

Lemma to_protobuf_loop_Ok kvs attributes :
  Forall (λ kp, ∃ v, structpbNewValue kp.2 = Ok v) kvs →
  mapper.to_protobuf_loop structpbNewValue kvs attributes
  = Ok (foldl (λ a kp, <[kp.1 := converted structpbNewValue kp.2]> a) attributes kvs).
Proof.
  intros Hall. revert attributes.
  induction Hall as [|[k p] kvs [v Hv] _ IH]; intros attributes; simpl in *; [done|].
  rewrite Hv, IH.
  by assert (converted structpbNewValue p = v) as -> by (unfold converted; by rewrite Hv).
Qed.

(** A failure of the loop is the failure of one attribute it visited,
    wrapped under that attribute's name. *)
Lemma to_protobuf_loop_Fail kvs attributes err :
  mapper.to_protobuf_loop structpbNewValue kvs attributes = Fail err →
  ∃ k p e, (k, p) ∈ kvs ∧ structpbNewValue p = Fail e ∧
           err = Wrap e ("parsing attribute " +:+ quoted k).
Proof.
  revert attributes. induction kvs as [|[k p] kvs IH]; intros attributes; simpl; [done|].
  destruct (structpbNewValue p) as [v|e] eqn:Hp.
  - intros Hloop. destruct (IH _ Hloop) as (k' & p' & e' & Hin & He & ->).
    exists k', p', e'. split_and!; [by right|done..].
  - intros [= <-]. exists k, p, e. split_and!; [by left|done..].
Qed.

(** The loop succeeds only if every attribute converts. *)
Lemma to_protobuf_loop_Ok_inv kvs attributes r :
  mapper.to_protobuf_loop structpbNewValue kvs attributes = Ok r →
  Forall (λ kp, ∃ v, structpbNewValue kp.2 = Ok v) kvs.
Proof.
  revert attributes. induction kvs as [|[k p] kvs IH]; intros attributes; simpl; [done|].
  destruct (structpbNewValue p) as [v|e] eqn:Hp; [|done].
  intros Hloop. constructor; [by exists v|by eapply IH].
Qed.

Lemma to_protobuf_Fail (dbProduct : models.Product) err :
  mapper.ProductModelToProductProtobuf ord structpbNewValue dbProduct = Fail err →
  ∃ k p e, entries (models.Attributes dbProduct) !! k = Some p ∧
           structpbNewValue p = Fail e ∧
           err = Wrap e ("parsing attribute " +:+ quoted k).
Proof.
  unfold mapper.ProductModelToProductProtobuf.
  destruct (mapper.to_protobuf_loop _ _ _) as [r|err'] eqn:Hloop; [done|].
  intros [= <-]. apply to_protobuf_loop_Fail in Hloop as (k & p & e & Hin & He & ->).
  exists k, p, e. by rewrite <- elem_of_range.
Qed.

Lemma to_protobuf_Ok_inv (dbProduct : models.Product) product :
  mapper.ProductModelToProductProtobuf ord structpbNewValue dbProduct = Ok product →
  ∀ k p, entries (models.Attributes dbProduct) !! k = Some p →
         ∃ v, structpbNewValue p = Ok v.
Proof.
  unfold mapper.ProductModelToProductProtobuf.
  destruct (mapper.to_protobuf_loop _ _ _) as [r|err'] eqn:Hloop; [|done].
  intros _ k p Hk. apply to_protobuf_loop_Ok_inv in Hloop.
  rewrite Forall_forall in Hloop.
  apply (Hloop (k, p)). by apply elem_of_range.
Qed.

Lemma to_response_loop_Fail dbProducts products err :
  mapper.to_response_loop ord structpbNewValue dbProducts products = Fail err →
  ∃ dbProduct, dbProduct ∈ dbProducts ∧
    mapper.ProductModelToProductProtobuf ord structpbNewValue dbProduct = Fail err.
Proof.
  revert products. induction dbProducts as [|d ds IH]; intros products; simpl; [done|].
  destruct (mapper.ProductModelToProductProtobuf _ _ d) as [product|e] eqn:Hd.
  - intros Hloop. destruct (IH _ Hloop) as (d' & Hin & Hd'). exists d'. split; [by right|done].
  - intros [= <-]. exists d. split; [by left|done].
Qed.

Lemma to_response_loop_Ok_inv dbProducts products r :
  mapper.to_response_loop ord structpbNewValue dbProducts products = Ok r →
  Forall (λ d, ∃ product,
    mapper.ProductModelToProductProtobuf ord structpbNewValue d = Ok product) dbProducts.
Proof.
  revert products. induction dbProducts as [|d ds IH]; intros products; simpl; [done|].
  destruct (mapper.ProductModelToProductProtobuf _ _ d) as [product|e] eqn:Hd; [|done].
  intros Hloop. constructor; [by exists product|by eapply IH].
Qed.

End mapper_loops.

(** ** mapper: the conversions *)

(** The model [ProductProtobufToProductModel] builds. *)
Lemma to_model_value (ord : RangeOrder) (AsInterface : Value → Dyn)
    (product : productcatalog.Product) :
  mapper.ProductProtobufToProductModel ord AsInterface product
  = Ok {| models.Uuid := productcatalog.Uuid product;
          models.Name := productcatalog.Name product;
          models.Description := productcatalog.Description product;
          models.Price := productcatalog.Price product;
          models.Attributes :=
            Some (AsInterface <$> entries (productcatalog.Attributes product)) |}.
Proof.
  unfold mapper.ProductProtobufToProductModel, models.set_Attributes; simpl.
  by rewrite to_model_loop_range.
Qed.

(** C8. From the wire to the model, the conversion has no error path: for
    every wire product and every iteration order it returns the one model
    with the same scalar fields and the dynamic form of every attribute; its
    attribute map is always allocated, so a product without attributes
    (nil or empty map) gives the empty map and never the nil one. *)
Theorem ProductProtobufToProductModel_total (ord : RangeOrder)
    (AsInterface : Value → Dyn) (product : productcatalog.Product) :
  mapper.ProductProtobufToProductModel ord AsInterface product
  = Ok {| models.Uuid := productcatalog.Uuid product;
          models.Name := productcatalog.Name product;
          models.Description := productcatalog.Description product;
          models.Price := productcatalog.Price product;
          models.Attributes :=
            Some (AsInterface <$> entries (productcatalog.Attributes product)) |}
  ∧ (entries (productcatalog.Attributes product) = ∅ →
     ∃ dbProduct,
       mapper.ProductProtobufToProductModel ord AsInterface product = Ok dbProduct ∧
       models.Attributes dbProduct = Some ∅).
Proof.
  split; [apply to_model_value|].
  intros Hempty. eexists. split; [apply to_model_value|].
  simpl. by rewrite Hempty, fmap_empty.
Qed.

Lemma ProductProtobufToProductModel_total_witness :
  entries (productcatalog.Attributes bareProduct) = ∅ ∧
  ∃ dbProduct,
    mapper.ProductProtobufToProductModel descending AsInterface bareProduct
      = Ok dbProduct ∧
    models.Attributes dbProduct = Some ∅.
Proof.
  split; [reflexivity|].
  apply (ProductProtobufToProductModel_total descending AsInterface bareProduct).
  reflexivity.
Defined.

(** C1. A wire product whose attribute values the library converts back
    from their dynamic form unchanged goes to the model and back to a wire
    product equal to it: same scalar fields, same attribute names, same
    value under every name, whatever the two iteration orders. *)
Theorem product_roundtrip (ord ord' : RangeOrder)
    (AsInterface : Value → Dyn) (structpbNewValue : Dyn → result Value)
    (product : productcatalog.Product) :
  (∀ k x, entries (productcatalog.Attributes product) !! k = Some x →
          structpbNewValue (AsInterface x) = Ok x) →
  ∃ dbProduct product',
    mapper.ProductProtobufToProductModel ord AsInterface product = Ok dbProduct ∧
    mapper.ProductModelToProductProtobuf ord' structpbNewValue dbProduct = Ok product' ∧
    product' = productcatalog.set_Attributes
                 (Some (entries (productcatalog.Attributes product))) product ∧
    productcatalog.Equal product' product.
Proof.
  intros Hrep.
  rewrite to_model_value.
  eexists _, _. split; [done|].
  unfold mapper.ProductModelToProductProtobuf; simpl.
  set (E := entries (productcatalog.Attributes product)) in *.
  rewrite to_protobuf_loop_Ok.
  - rewrite foldl_insert_fmap by apply range_NoDup.
    rewrite range_to_map, (right_id_L ∅ (∪)); simpl.
    assert (converted structpbNewValue <$> (AsInterface <$> E) = E) as ->.
    { apply map_eq; intros k. rewrite !lookup_fmap.
      destruct (E !! k) as [x|] eqn:Hk; simpl; [|done].
      unfold converted. by rewrite (Hrep k x Hk). }
    split_and!; [done..|]. by repeat split.
  - apply Forall_forall. intros [k p] Hin.
    apply elem_of_range in Hin. simpl in Hin.
    apply lookup_fmap_Some in Hin as (x & <- & Hk).
    exists x. by apply (Hrep k).
Qed.

Lemma product_roundtrip_witness :
  ∃ dbProduct product',
    mapper.ProductProtobufToProductModel ascending AsInterface testProduct
      = Ok dbProduct ∧
    mapper.ProductModelToProductProtobuf descending NewValue dbProduct = Ok product' ∧
    product' = productcatalog.set_Attributes
                 (Some (entries (productcatalog.Attributes testProduct))) testProduct ∧
    productcatalog.Equal product' testProduct.
Proof.
  apply (product_roundtrip ascending descending AsInterface NewValue testProduct).
  intros k x _. apply NewValue_AsInterface.
Defined.

(** C7. If an attribute of a model is rejected by the conversion to the
    wire, the model is not converted: the call fails, with the rejection of
    one such attribute wrapped under that attribute's name, and there is no
    product in the result. The same holds for a list of models as soon as
    one of them has such an attribute: no response at all. *)
Theorem ProductModelToProductProtobuf_names_attribute (ord : RangeOrder)
    (structpbNewValue : Dyn → result Value) :
  (∀ dbProduct k e,
     unconvertible structpbNewValue dbProduct k e →
     ∃ k' e',
       unconvertible structpbNewValue dbProduct k' e' ∧
       mapper.ProductModelToProductProtobuf ord structpbNewValue dbProduct
         = Fail (Wrap e' ("parsing attribute " +:+ quoted k')) ∧
       Error (Wrap e' ("parsing attribute " +:+ quoted k'))
         = ("parsing attribute " +:+ quoted k') +:+ ": " +:+ Error e') ∧
  (∀ dbProducts dbProduct k e,
     dbProduct ∈ dbProducts →
     unconvertible structpbNewValue dbProduct k e →
     ∃ dbProduct' k' e',
       dbProduct' ∈ dbProducts ∧
       unconvertible structpbNewValue dbProduct' k' e' ∧
       mapper.ProductModelListToListProductsResponse ord structpbNewValue dbProducts
         = Fail (Wrap e' ("parsing attribute " +:+ quoted k'))).
Proof.
  assert (∀ dbProduct k e,
    unconvertible structpbNewValue dbProduct k e →
    ∃ err, mapper.ProductModelToProductProtobuf ord structpbNewValue dbProduct
           = Fail err) as Hfails.
  { intros dbProduct k e (p & Hk & Hp).
    destruct (mapper.ProductModelToProductProtobuf _ _ _) as [product|err] eqn:Hconv;
      [|by eexists].
    destruct (to_protobuf_Ok_inv _ _ _ _ Hconv k p Hk) as [v Hv]. congruence. }
  split.
  - intros dbProduct k e Hbad.
    destruct (Hfails _ _ _ Hbad) as [err Herr].
    destruct (to_protobuf_Fail _ _ _ _ Herr) as (k' & p' & e' & Hk' & Hp' & ->).
    exists k', e'. split_and!; [by exists p'|done..].
  - intros dbProducts dbProduct k e Hin Hbad.
    unfold mapper.ProductModelListToListProductsResponse.
    destruct (mapper.to_response_loop _ _ _ _) as [products|err] eqn:Hloop.
    + apply to_response_loop_Ok_inv in Hloop. rewrite Forall_forall in Hloop.
      destruct (Hloop _ Hin) as [product Hok].
      destruct (Hfails _ _ _ Hbad) as [err Herr]. congruence.
    + apply to_response_loop_Fail in Hloop as (d & Hd & Herr).
      destruct (to_protobuf_Fail _ _ _ _ Herr) as (k' & p' & e' & Hk' & Hp' & ->).
      exists d, k', e'. split_and!; [done|by exists p'|done].
Qed.

Lemma ProductModelToProductProtobuf_names_attribute_witness :
  unconvertible mockStructpbNewValue testModel "color" randomError ∧
  (∃ k' e',
     unconvertible mockStructpbNewValue testModel k' e' ∧
     mapper.ProductModelToProductProtobuf ascending mockStructpbNewValue testModel
       = Fail (Wrap e' ("parsing attribute " +:+ quoted k')) ∧
     Error (Wrap e' ("parsing attribute " +:+ quoted k'))
       = ("parsing attribute " +:+ quoted k') +:+ ": " +:+ Error e') ∧
  (∃ dbProduct' k' e',
     dbProduct' ∈ oneProduct ∧
     unconvertible mockStructpbNewValue dbProduct' k' e' ∧
     mapper.ProductModelListToListProductsResponse ascending mockStructpbNewValue
       oneProduct
       = Fail (Wrap e' ("parsing attribute " +:+ quoted k'))).
Proof.
  assert (unconvertible mockStructpbNewValue testModel "color" randomError) as Hbad.
  { exists (DString "blue"). split; reflexivity. }
  split; [exact Hbad|]. split.
  - exact (proj1 (ProductModelToProductProtobuf_names_attribute ascending
                    mockStructpbNewValue) testModel "color" randomError Hbad).
  - apply (proj2 (ProductModelToProductProtobuf_names_attribute ascending
                    mockStructpbNewValue) oneProduct testModel "color" randomError);
      [left|exact Hbad].
Defined.

(** The failure the mapper test expects. *)
Example ProductModelToProductProtobuf_test_error :
  mapper.ProductModelToProductProtobuf ascending mockStructpbNewValue testModel
  = Fail (Wrap randomError ("parsing attribute " +:+ quoted "color")).
Proof. reflexivity. Qed.

(** ** store/product: Get and Delete *)

(** Wrapping keeps the innermost cause. *)
Lemma Cause_Wrap (err : error) (message : string) :
  Cause (Wrap err message) = Cause err.
Proof. reflexivity. Qed.

Lemma append_inv_head (s a b : string) : s +:+ a = s +:+ b → a = b.
Proof. induction s as [|c s IH]; simpl; [done|]. intros [= H]. by apply IH. Qed.

Section repository.

Context {S C : Type} `{!product.Cursor C} `{!product.Seams S C}.

Lemma Get_outcome (req : productcatalog.GetProductRequest) (w : product.World S) :
  (product.Get req w).1 =
  match (product.findOne {[ "uuid" := product.BString (productcatalog.GetUuid req) ]}
           models.zero (product.store w)).1.2 with
  | Some ErrNoDocuments => Fail (NotFound (productcatalog.GetUuid req))
  | Some err =>
      Fail (Wrap err ("getting product with uuid "
                        +:+ quoted (productcatalog.GetUuid req)))
  | None => Ok (fresh (dom (product.heap w)))
  end.
Proof.
  unfold product.Get, product.alloc, product.call; simpl.
  destruct (product.findOne _ _ _) as [[p [err|]] s']; simpl; [|done].
  by destruct err.
Qed.

(** C2. When the lookup reports the sentinel for no matching document,
    [Get] fails with the not-found error for the uuid; when it reports
    any other error, [Get] fails with that error wrapped under the uuid.
    The two cannot be taken for one another: they differ as errors (only
    the second wraps a cause) and in the text they print, and still do once
    the handler has wrapped them for the same request. *)
Theorem Get_not_found_distinguished (req : productcatalog.GetProductRequest)
    (w : product.World S) (p : models.Product) (err : option error) (s' : S) :
  product.findOne {[ "uuid" := product.BString (productcatalog.GetUuid req) ]}
    models.zero (product.store w) = ((p, err), s') →
  (err = Some ErrNoDocuments →
   (product.Get req w).1 = Fail (NotFound (productcatalog.GetUuid req))) ∧
  (∀ cause, err = Some cause → cause ≠ ErrNoDocuments →
     (product.Get req w).1
       = Fail (Wrap cause ("getting product with uuid "
                             +:+ quoted (productcatalog.GetUuid req))) ∧
     Unwrap (Wrap cause ("getting product with uuid "
                           +:+ quoted (productcatalog.GetUuid req))) = Some cause) ∧
  (∀ cause uuid uuid',
     NotFound uuid ≠ Wrap cause ("getting product with uuid " +:+ quoted uuid') ∧
     Unwrap (NotFound uuid) = None ∧
     Error (NotFound uuid)
       ≠ Error (Wrap cause ("getting product with uuid " +:+ quoted uuid')) ∧
     Error (Wrap (NotFound uuid) ("getting product with uuid " +:+ uuid))
       ≠ Error (Wrap (Wrap cause ("getting product with uuid " +:+ quoted uuid'))
                  ("getting product with uuid " +:+ uuid))).
Proof.
  intros Hlookup. split_and!.
  - intros ->. by rewrite Get_outcome, Hlookup.
  - intros cause -> Hcause. rewrite Get_outcome, Hlookup; simpl.
    by destruct cause.
  - intros cause uuid uuid'. split_and!; [done|done|done|].
    simpl. intros Heq. apply append_inv_head in Heq. discriminate Heq.
Qed.

(** What the handler returns for a lookup that failed. *)
Lemma GetProduct_failure (ord : RangeOrder) (conv : Dyn → result Value)
    (req : productcatalog.GetProductRequest) (w : product.World S) err :
  (product.Get req w).1 = Fail err →
  ∃ w', server.GetProduct ord conv req w
        = Some (Fail (Wrap err ("getting product with uuid "
                                  +:+ productcatalog.GetUuid req)), w').
Proof.
  unfold server.GetProduct. destruct (product.Get req w) as [r w']; simpl.
  intros ->. by eexists.
Qed.

Lemma Delete_outcome (req : productcatalog.DeleteProductRequest) (w : product.World S) :
  (product.Delete req w).1 =
  match (product.deleteOne
           {[ "uuid" := product.BString (productcatalog.DeleteUuid req) ]}
           (product.store w)).1.2 with
  | Some err =>
      Fail (Wrap err ("deleting product with uuid "
                        +:+ quoted (productcatalog.DeleteUuid req)))
  | None => Ok {| productcatalog.Result := "success" |}
  end.
Proof.
  unfold product.Delete, product.call.
  by destruct (product.deleteOne _ _) as [[res [err|]] s'].
Qed.

(** C6. [Delete] succeeds, with the result [success], whenever the
    store's delete reports no error, whatever it says about the number of
    documents deleted (none included); it fails only when the store's
    delete reports an error, and then with that error wrapped under a
    message that holds the uuid. *)
Theorem Delete_idempotent (req : productcatalog.DeleteProductRequest)
    (w : product.World S) (res : option mongo.DeleteResult) (err : option error)
    (s' : S) :
  product.deleteOne {[ "uuid" := product.BString (productcatalog.DeleteUuid req) ]}
    (product.store w) = ((res, err), s') →
  (err = None →
   (product.Delete req w).1 = Ok {| productcatalog.Result := "success" |}) ∧
  (∀ cause, err = Some cause →
     (product.Delete req w).1
       = Fail (Wrap cause ("deleting product with uuid "
                             +:+ quoted (productcatalog.DeleteUuid req))) ∧
     Unwrap (Wrap cause ("deleting product with uuid "
                           +:+ quoted (productcatalog.DeleteUuid req))) = Some cause) ∧
  ((∃ e, (product.Delete req w).1 = Fail e) ↔ err ≠ None) ∧
  product.calls (product.Delete req w).2
    = (product.calls w
       ++ [product.CalledDeleteOne
             {[ "uuid" := product.BString (productcatalog.DeleteUuid req) ]}])%list.
Proof.
  intros Hdel. unfold product.Delete, product.call. rewrite Hdel.
  destruct err as [e|]; simpl; split_and!; try done.
  - intros cause [= <-]. done.
  - split; [done|]. intros _. by eexists.
  - split; [by intros [e He]|done].
Qed.

End repository.

Lemma Get_not_found_distinguished_witness :
  (product.Get getUuid (boot ∅ mock.quiet)).1 = Fail (NotFound "uuid") ∧
  (product.Get getUuid (boot ∅ (withFindOne (λ p, (p, Some randomError)) mock.quiet))).1
    = Fail (Wrap randomError ("getting product with uuid " +:+ quoted "uuid")).
Proof.
  split.
  - apply (Get_not_found_distinguished getUuid (boot ∅ mock.quiet)
             models.zero (Some ErrNoDocuments) mock.quiet); reflexivity.
  - apply (Get_not_found_distinguished getUuid
             (boot ∅ (withFindOne (λ p, (p, Some randomError)) mock.quiet))
             models.zero (Some randomError)
             (withFindOne (λ p, (p, Some randomError)) mock.quiet));
      [reflexivity|reflexivity|discriminate].
Defined.

Lemma Delete_idempotent_witness :
  (product.Delete deleteUuid (boot ∅ mock.quiet)).1
    = Ok {| productcatalog.Result := "success" |} ∧
  (product.Delete deleteUuid
     (boot ∅ (withDelete (Some {| mongo.DeletedCount := 0 |}, None) mock.quiet))).1
    = Ok {| productcatalog.Result := "success" |} ∧
  (product.Delete deleteUuid
     (boot ∅ (withDelete (None, Some randomError) mock.quiet))).1
    = Fail (Wrap randomError ("deleting product with uuid " +:+ quoted "uuid")).
Proof.
  split_and!.
  - apply (Delete_idempotent deleteUuid (boot ∅ mock.quiet) None None mock.quiet);
      reflexivity.
  - apply (Delete_idempotent deleteUuid
             (boot ∅ (withDelete (Some {| mongo.DeletedCount := 0 |}, None) mock.quiet))
             (Some {| mongo.DeletedCount := 0 |}) None
             (withDelete (Some {| mongo.DeletedCount := 0 |}, None) mock.quiet));
      reflexivity.
  - apply (Delete_idempotent deleteUuid
             (boot ∅ (withDelete (None, Some randomError) mock.quiet))
             None (Some randomError)
             (withDelete (None, Some randomError) mock.quiet));
      reflexivity.
Defined.

(** ** store/product: Create *)

Lemma count_app (f : product.Call → bool) (l l' : list product.Call) :
  product.count f (l ++ l') = product.count f l + product.count f l'.
Proof. unfold product.count. by rewrite List.filter_app, length_app. Qed.

(** The identifiers of the generator *)

Lemma length_append (a b : string) :
  String.length (a +:+ b) = String.length a + String.length b.
Proof. induction a as [|c a IH]; simpl; [done|]. by rewrite IH. Qed.

Lemma length_hex (width : nat) (n : N) : String.length (uuid.hex width n) = width.
Proof.
  revert n. induction width as [|width IH]; intros n; [done|].
  cbn [uuid.hex]. rewrite length_append, IH. simpl. lia.
Qed.

(** Whatever bits are drawn, the identifier has 36 characters. *)
Lemma length_NewString (random : N) : String.length (uuid.NewString random) = 36.
Proof.
  unfold uuid.NewString. cbv zeta. rewrite !length_append, !length_hex. reflexivity.
Qed.

Lemma NewString_nonempty (random : N) : uuid.NewString random ≠ EmptyString.
Proof.
  intros Hempty. pose proof (length_NewString random) as Hlen.
  rewrite Hempty in Hlen. discriminate Hlen.
Qed.

Section repository_create.

Context {S C : Type} `{!product.Cursor C} `{!product.Seams S C}.

(** [Create], step by step: the uuid is drawn, written through the
    pointer, and the record that then sits behind the pointer is inserted. *)
Lemma Create_run (newProduct : product.loc) (w : product.World S)
    (p : models.Product) uuid s1 res err s2 :
  product.heap w !! newProduct = Some p →
  product.uuidProvider (product.store w) = (uuid, s1) →
  product.insertIntoCollection (models.set_Uuid uuid p) s1 = ((res, err), s2) →
  product.Create newProduct w
  = Some (match err with
          | Some cause => Fail (Wrap cause "inserting product")
          | None => Ok newProduct
          end,
          {| product.heap := <[newProduct := models.set_Uuid uuid p]> (product.heap w);
             product.store := s2;
             product.calls :=
               (product.calls w
                ++ [product.CalledUuidProvider;
                    product.CalledInsertIntoCollection (models.set_Uuid uuid p)])%list |}).
Proof.
  intros Hheap Huuid Hins.
  unfold product.Create, product.call, product.write. rewrite Huuid; simpl.
  rewrite Hheap; simpl. rewrite Hins; simpl.
  rewrite <- !app_assoc. by destruct err.
Qed.

(** C3. [Create] gives the record the identifier the generator returns,
    whatever identifier the caller had put there, and hands the whole
    record, with that identifier, to the store in one insert, never
    repeated. If the insert succeeds, the record returned carries the
    generated identifier and the name, description, price and attributes of
    the input; when the generator is [uuid.NewString], as the package binds
    it, that identifier has 36 characters and so is not empty. If the insert
    fails, the error returned wraps the store's. *)
Theorem Create_assigns_generated_uuid (newProduct : product.loc)
    (w : product.World S) (p : models.Product) uuid s1 res err s2 :
  product.heap w !! newProduct = Some p →
  product.uuidProvider (product.store w) = (uuid, s1) →
  product.insertIntoCollection (models.set_Uuid uuid p) s1 = ((res, err), s2) →
  ∃ r w',
    product.Create newProduct w = Some (r, w') ∧
    product.calls w'
      = (product.calls w
         ++ [product.CalledUuidProvider;
             product.CalledInsertIntoCollection (models.set_Uuid uuid p)])%list ∧
    product.count product.is_Insert (product.calls w')
      = Datatypes.S (product.count product.is_Insert (product.calls w)) ∧
    product.store w' = s2 ∧
    (err = None →
     ∃ l p', r = Ok l ∧ product.heap w' !! l = Some p' ∧
             models.Uuid p' = uuid ∧
             (∀ random, uuid = uuid.NewString random →
                String.length (models.Uuid p') = 36 ∧
                models.Uuid p' ≠ EmptyString) ∧
             models.Name p' = models.Name p ∧
             models.Description p' = models.Description p ∧
             models.Price p' = models.Price p ∧
             models.Attributes p' = models.Attributes p) ∧
    (∀ cause, err = Some cause →
       r = Fail (Wrap cause "inserting product") ∧
       Unwrap (Wrap cause "inserting product") = Some cause ∧
       Error (Wrap cause "inserting product")
         = "inserting product: " +:+ Error cause).
Proof.
  intros Hheap Huuid Hins. eexists _, _.
  split; [by apply (Create_run _ _ _ _ _ _ _ _ Hheap Huuid Hins)|]. simpl.
  split_and!; [done| |done| |].
  - rewrite count_app. unfold product.count; simpl. lia.
  - intros ->. exists newProduct, (models.set_Uuid uuid p).
    rewrite lookup_insert_eq. split_and!; [done..| |done|done|done|done].
    intros random ->. split; [apply length_NewString|apply NewString_nonempty].
  - by intros cause ->.
Qed.

(** C10. [Create] writes the generated identifier into the record the
    caller's pointer refers to, and into nothing else, before the insert:
    the insert sees the record with the new identifier. On success the
    pointer returned is the caller's own; on failure the caller's record
    keeps the new identifier. *)
Theorem Create_mutates_argument (newProduct : product.loc)
    (w : product.World S) (p : models.Product) uuid s1 res err s2 :
  product.heap w !! newProduct = Some p →
  product.uuidProvider (product.store w) = (uuid, s1) →
  product.insertIntoCollection (models.set_Uuid uuid p) s1 = ((res, err), s2) →
  ∃ r w',
    product.Create newProduct w = Some (r, w') ∧
    product.heap w' = <[newProduct := models.set_Uuid uuid p]> (product.heap w) ∧
    dom (product.heap w') = dom (product.heap w) ∧
    (∀ l, l ≠ newProduct → product.heap w' !! l = product.heap w !! l) ∧
    last (product.calls w')
      = Some (product.CalledInsertIntoCollection (models.set_Uuid uuid p)) ∧
    (err = None → r = Ok newProduct) ∧
    (∀ cause, err = Some cause →
       r = Fail (Wrap cause "inserting product") ∧
       ∃ p', product.heap w' !! newProduct = Some p' ∧ models.Uuid p' = uuid).
Proof.
  intros Hheap Huuid Hins. eexists _, _.
  split; [by apply (Create_run _ _ _ _ _ _ _ _ Hheap Huuid Hins)|]. simpl.
  split_and!; [done| | | | |].
  - by apply dom_insert_lookup_L.
  - intros l Hl. by rewrite lookup_insert_ne.
  - by rewrite last_app.
  - by intros ->.
  - intros cause ->. split; [done|].
    exists (models.set_Uuid uuid p). by rewrite lookup_insert_eq.
Qed.

End repository_create.

Lemma Create_assigns_generated_uuid_witness :
  ∃ r w',
    product.Create (C := mock.MockCursor) 0
      (boot {[ 0 := mixedModel ]} (withUuid (uuid.NewString 42) mock.quiet))
      = Some (r, w') ∧
    product.calls w'
      = [product.CalledUuidProvider;
         product.CalledInsertIntoCollection
           (models.set_Uuid "00000000-0000-4000-8000-00000000002a" mixedModel)] ∧
    ∃ l p', r = Ok l ∧ product.heap w' !! l = Some p' ∧
            models.Uuid mixedModel = "uuid2" ∧
            models.Uuid p' = "00000000-0000-4000-8000-00000000002a" ∧
            String.length (models.Uuid p') = 36 ∧
            models.Uuid p' ≠ EmptyString ∧
            models.Name p' = models.Name mixedModel ∧
            models.Description p' = models.Description mixedModel ∧
            models.Price p' = models.Price mixedModel ∧
            models.Attributes p' = models.Attributes mixedModel.
Proof.
  destruct (Create_assigns_generated_uuid (C := mock.MockCursor) 0
              (boot {[ 0 := mixedModel ]} (withUuid (uuid.NewString 42) mock.quiet))
              mixedModel (uuid.NewString 42)
              (withUuid (uuid.NewString 42) mock.quiet)
              (Some mongo.Build_InsertOneResult) None
              (withUuid (uuid.NewString 42) mock.quiet))
    as (r & w' & Hrun & Hcalls & _ & _ & Hok & _); [reflexivity..|].
  exists r, w'. split_and!; [exact Hrun|exact Hcalls|].
  destruct (Hok eq_refl) as (l & p' & Hr & Hl & Hu & Hnew & Hn & Hd & Hp & Ha).
  destruct (Hnew 42%N eq_refl) as [Hlen Hne].
  exists l, p'. split_and!; [exact Hr|exact Hl|reflexivity|exact Hu|exact Hlen
                            |exact Hne|exact Hn|exact Hd|exact Hp|exact Ha].
Defined.

Lemma Create_mutates_argument_witness :
  ∃ r w',
    product.Create (C := mock.MockCursor) 0
      (boot {[ 0 := mixedModel; 1 := testModel ]}
         (withInsert (None, Some randomError) mock.quiet))
      = Some (r, w') ∧
    r = Fail (Wrap randomError "inserting product") ∧
    models.Uuid mixedModel = "uuid2" ∧
    product.heap w' !! 0 = Some (models.set_Uuid "uuid" mixedModel) ∧
    product.heap w' !! 1 = Some testModel ∧
    dom (product.heap w') = {[ 0; 1 ]} ∧
    last (product.calls w')
      = Some (product.CalledInsertIntoCollection (models.set_Uuid "uuid" mixedModel)).
Proof.
  destruct (Create_mutates_argument (C := mock.MockCursor) 0
              (boot {[ 0 := mixedModel; 1 := testModel ]}
                 (withInsert (None, Some randomError) mock.quiet))
              mixedModel "uuid" (withInsert (None, Some randomError) mock.quiet)
              None (Some randomError) (withInsert (None, Some randomError) mock.quiet))
    as (r & w' & Hrun & Hheap & Hdom & Hothers & Hlast & _ & Hfail); [reflexivity..|].
  exists r, w'. split_and!.
  - exact Hrun.
  - by apply Hfail.
  - reflexivity.
  - rewrite Hheap. apply lookup_insert_eq.
  - etrans; [apply Hothers; discriminate|reflexivity].
  - rewrite Hdom. cbn [boot product.heap]. by rewrite dom_insert_L, dom_singleton_L.
  - exact Hlast.
Defined.

(** ** store/product: List *)

Section repository_list.

Context {S C : Type} `{!product.Cursor C} `{!product.Seams S C}.

(** While the cursor hands out documents that decode, the loop appends one
    fresh pointer per document, each to the product decoded, and closes
    nothing. *)
Lemma List_loop_produces (cur c1 : C) (ps : list models.Product) :
  produces cur ps c1 →
  ∀ fuel products (w : product.World S),
  ∃ ls w' cs,
    product.List_loop (length ps + fuel) cur products w
      = product.List_loop fuel c1 (products ++ ls)%list w' ∧
    Forall2 (λ l p, product.heap w' !! l = Some p) ls ps ∧
    product.heap w ⊆ product.heap w' ∧
    product.store w' = product.store w ∧
    product.calls w' = (product.calls w ++ cs)%list ∧
    product.count product.is_Close cs = 0.
Proof.
  induction 1 as [c|c c1 p ps c' Hnext Hdecode _ IH]; intros fuel products w.
  - exists [], w, []. rewrite !app_nil_r. by split_and!.
  - cbn [length Nat.add product.List_loop]. rewrite Hnext, Hdecode.
    unfold product.alloc, product.write, product.note; cbn.
    set (l := fresh (dom (product.heap w))).
    set (w1 := {| product.heap := _; product.store := _; product.calls := _ |}).
    destruct (IH fuel (products ++ [l])%list w1)
      as (ls & w' & cs & Hloop & Hls & Hheap & Hstore & Hcalls & Hcount).
    assert (product.heap w !! l = None) as Hfresh
      by (apply not_elem_of_dom, is_fresh).
    exists (l :: ls), w', ([product.CalledNext; product.CalledDecode] ++ cs)%list.
    split_and!.
    + rewrite Hloop. by rewrite <- app_assoc.
    + constructor; [|done].
      eapply lookup_weaken; [|exact Hheap]. subst w1; simpl.
      by rewrite lookup_insert_eq.
    + etrans; [|exact Hheap]. subst w1; simpl.
      rewrite insert_insert_eq. by apply insert_subseteq.
    + by rewrite Hstore.
    + rewrite Hcalls. subst w1; simpl. by rewrite <- !app_assoc.
    + by rewrite count_app, Hcount.
Qed.

(** If the iteration ends within the fuel, the loop returns, having closed
    nothing. *)
Lemma List_loop_halts (fuel : nat) :
  ∀ (cur : C) products (w : product.World S),
  halts fuel cur = true →
  ∃ r c' w' cs,
    product.List_loop fuel cur products w = Some (r, c', w') ∧
    product.calls w' = (product.calls w ++ cs)%list ∧
    product.count product.is_Close cs = 0.
Proof.
  induction fuel as [|fuel IH]; intros cur products w; simpl; [done|].
  destruct (product.Next cur) as [[] cur'].
  - destruct (product.Decode cur' models.zero) as [p [e|]] eqn:Hdecode; simpl.
    + intros _. eexists _, _, _, [product.CalledNext; product.CalledDecode].
      split_and!; [done| |done]. cbn. by rewrite <- app_assoc.
    + intros Hhalts.
      edestruct IH as (r & c' & w' & cs & Hloop & Hcalls & Hcount); [exact Hhalts|].
      exists r, c', w', ([product.CalledNext; product.CalledDecode] ++ cs)%list.
      split_and!; [exact Hloop| |by rewrite count_app, Hcount].
      rewrite Hcalls. cbn. by rewrite <- !app_assoc.
  - intros _. eexists _, _, _, [product.CalledNext]. by split_and!.
Qed.

Lemma List_body_halts (fuel : nat) (cur : C) (w : product.World S) :
  halts fuel cur = true →
  ∃ r c' w' cs,
    product.List_body fuel cur w = Some (r, c', w') ∧
    product.calls w' = (product.calls w ++ cs)%list ∧
    product.count product.is_Close cs = 0.
Proof.
  intros Hhalts. unfold product.List_body.
  destruct (List_loop_halts fuel cur [] w Hhalts)
    as (r & c' & w' & cs & -> & Hcalls & Hcount).
  destruct r as [products|err].
  - exists (match product.Err c' with
            | Some err => Fail (Wrap err "cursor error")
            | None => Ok products
            end), c', (product.note product.CalledErr w'),
           (cs ++ [product.CalledErr])%list.
    split_and!.
    + by destruct (product.Err c').
    + simpl. by rewrite Hcalls, <- app_assoc.
    + by rewrite count_app, Hcount.
  - by exists (Fail err), c', w', cs.
Qed.

(** The body of [List] when the cursor, after the products [ps], is in
    state [c1] and [n] more calls of [Next] are allowed. *)
Lemma List_body_produces (cur c1 : C) (ps : list models.Product) (n : nat)
    (w : product.World S) :
  produces cur ps c1 →
  ∃ ls w',
    Forall2 (λ l p, product.heap w' !! l = Some p) ls ps ∧
    product.List_body (length ps + n) cur w
      = match product.List_loop n c1 ls w' with
        | None => None
        | Some (Fail err, c2, w2) => Some (Fail err, c2, w2)
        | Some (Ok products, c2, w2) =>
            match product.Err c2 with
            | Some err =>
                Some (Fail (Wrap err "cursor error"), c2, product.note product.CalledErr w2)
            | None => Some (Ok products, c2, product.note product.CalledErr w2)
            end
        end.
Proof.
  intros Hps. unfold product.List_body.
  destruct (List_loop_produces cur c1 ps Hps n [] w)
    as (ls & w' & cs & -> & Hls & _). by exists ls, w'.
Qed.

End repository_list.

Section repository_list_claims.

Context {S C : Type} `{!product.Cursor C} `{!product.Seams S C}.

(** C5. [List] returns an error and no product when the cursor cannot be
    opened, when a document fails to decode after any number of documents
    that decoded, and when the cursor, once exhausted, reports an error. When
    none of this happens it returns one pointer per document, to the product
    decoded; for a cursor with no document that is the empty list. *)
Theorem List_fails_atomically (fuel : nat) (req : productcatalog.ListProductsRequest)
    (w : product.World S) (cur : C) (ferr : option error) (s1 : S) :
  product.find ∅ (product.store w) = ((cur, ferr), s1) →
  (∀ e, ferr = Some e →
     ∃ w', product.List fuel req w = Some (Fail (Wrap e "finding products"), w')) ∧
  (∀ ps c1 c2 p e,
     ferr = None → produces cur ps c1 →
     product.Next c1 = (true, c2) → product.Decode c2 models.zero = (p, Some e) →
     length ps < fuel →
     ∃ w', product.List fuel req w = Some (Fail (Wrap e "decoding product"), w')) ∧
  (∀ ps c1 c2 e,
     ferr = None → produces cur ps c1 →
     product.Next c1 = (false, c2) → product.Err c2 = Some e →
     length ps < fuel →
     ∃ w', product.List fuel req w = Some (Fail (Wrap e "cursor error"), w')) ∧
  (∀ ps c1 c2,
     ferr = None → produces cur ps c1 →
     product.Next c1 = (false, c2) → product.Err c2 = None →
     length ps < fuel →
     ∃ ls w', product.List fuel req w = Some (Ok ls, w') ∧
              Forall2 (λ l p, product.heap w' !! l = Some p) ls ps) ∧
  (∀ c2,
     ferr = None →
     product.Next cur = (false, c2) → product.Err c2 = None →
     0 < fuel →
     ∃ w', product.List fuel req w = Some (Ok [], w')).
Proof.
  intros Hfind.
  assert (∀ ps c1 c2,
     ferr = None → produces cur ps c1 →
     product.Next c1 = (false, c2) → product.Err c2 = None →
     length ps < fuel →
     ∃ ls w', product.List fuel req w = Some (Ok ls, w') ∧
              Forall2 (λ l p, product.heap w' !! l = Some p) ls ps) as Hsuccess.
  { intros ps c1 c2 -> Hps Hnext Herr Hfuel.
    unfold product.List, product.call. rewrite Hfind.
    replace fuel with (length ps + Datatypes.S (fuel - Datatypes.S (length ps))) by lia.
    match goal with |- context [product.List_body ?n _ ?w0] =>
      destruct (List_body_produces cur c1 ps
                  (Datatypes.S (fuel - Datatypes.S (length ps))) w0 Hps)
        as (ls & w' & Hls & ->)
    end.
    cbn [product.List_loop]. rewrite Hnext, Herr.
    destruct (product.Close c2). by exists ls; eexists. }
  split_and!.
  - intros e ->. unfold product.List, product.call. rewrite Hfind. by eexists.
  - intros ps c1 c2 p e -> Hps Hnext Hdecode Hfuel.
    unfold product.List, product.call. rewrite Hfind.
    replace fuel with (length ps + Datatypes.S (fuel - Datatypes.S (length ps))) by lia.
    match goal with |- context [product.List_body ?n _ ?w0] =>
      destruct (List_body_produces cur c1 ps
                  (Datatypes.S (fuel - Datatypes.S (length ps))) w0 Hps)
        as (ls & w' & Hls & ->)
    end.
    cbn [product.List_loop]. rewrite Hnext. cbn. rewrite Hdecode.
    destruct (product.Close c2). by eexists.
  - intros ps c1 c2 e -> Hps Hnext Herr Hfuel.
    unfold product.List, product.call. rewrite Hfind.
    replace fuel with (length ps + Datatypes.S (fuel - Datatypes.S (length ps))) by lia.
    match goal with |- context [product.List_body ?n _ ?w0] =>
      destruct (List_body_produces cur c1 ps
                  (Datatypes.S (fuel - Datatypes.S (length ps))) w0 Hps)
        as (ls & w' & Hls & ->)
    end.
    cbn [product.List_loop]. rewrite Hnext, Herr.
    destruct (product.Close c2). by eexists.
  - exact Hsuccess.
  - intros c2 Hferr Hnext Herr Hfuel.
    destruct (Hsuccess [] cur c2 Hferr (produces_nil cur) Hnext Herr Hfuel)
      as (ls & w' & Hlist & Hls).
    apply Forall2_nil_inv_r in Hls as ->. by exists w'.
Qed.

(** C9, as the code has it. When the cursor is opened and the iteration
    ends, by exhaustion, by a document that does not decode or by an error
    of the cursor, [List] calls [Close] exactly once, as the last thing it
    does. When the cursor cannot be opened there is nothing to close: [List]
    returns the error without calling [Close]. *)
Theorem List_closes_cursor (fuel : nat) (req : productcatalog.ListProductsRequest)
    (w : product.World S) (cur : C) (ferr : option error) (s1 : S) :
  product.find ∅ (product.store w) = ((cur, ferr), s1) →
  (ferr = None → halts fuel cur = true →
   ∃ r w' cs,
     product.List fuel req w = Some (r, w') ∧
     product.calls w'
       = (product.calls w ++ [product.CalledFind ∅] ++ cs ++ [product.CalledClose])%list ∧
     product.count product.is_Close cs = 0 ∧
     product.count product.is_Close (product.calls w')
       = Datatypes.S (product.count product.is_Close (product.calls w))) ∧
  (∀ e, ferr = Some e →
     ∃ w',
       product.List fuel req w = Some (Fail (Wrap e "finding products"), w') ∧
       product.calls w' = (product.calls w ++ [product.CalledFind ∅])%list ∧
       product.count product.is_Close (product.calls w')
         = product.count product.is_Close (product.calls w)).
Proof.
  intros Hfind. split.
  - intros -> Hhalts. unfold product.List, product.call. rewrite Hfind.
    match goal with |- context [product.List_body _ _ ?w0] =>
      destruct (List_body_halts fuel cur w0 Hhalts)
        as (r & c' & w' & cs & -> & Hcalls & Hcount)
    end.
    destruct (product.Close c'). exists r; eexists; exists cs.
    split; [done|]. simpl in *. rewrite Hcalls, <- !app_assoc.
    split_and!; [done..|].
    rewrite !count_app, Hcount. unfold product.count; simpl. lia.
  - intros e ->. unfold product.List, product.call. rewrite Hfind.
    eexists. split_and!; [done..|]. simpl.
    rewrite count_app. unfold product.count; simpl. lia.
Qed.

End repository_list_claims.

Lemma List_fails_atomically_witness :
  (∃ w', product.List 1 listAll
           (boot ∅ (withFind (mock.noCursor, Some randomError) mock.quiet))
         = Some (Fail (Wrap randomError "finding products"), w')) ∧
  (∃ w', product.List 2 listAll (boot ∅ (withFind (cursorDecodeError, None) mock.quiet))
         = Some (Fail (Wrap randomError "decoding product"), w')) ∧
  (∃ w', product.List 2 listAll (boot ∅ (withFind (cursorError, None) mock.quiet))
         = Some (Fail (Wrap randomError "cursor error"), w')) ∧
  (∃ w', product.List 1 listAll (boot ∅ mock.quiet) = Some (Ok [], w')).
Proof.
  split_and!.
  - apply (List_fails_atomically 1 listAll
             (boot ∅ (withFind (mock.noCursor, Some randomError) mock.quiet))
             mock.noCursor (Some randomError)
             (withFind (mock.noCursor, Some randomError) mock.quiet));
      reflexivity.
  - destruct (List_fails_atomically 2 listAll
                (boot ∅ (withFind (cursorDecodeError, None) mock.quiet))
                cursorDecodeError None
                (withFind (cursorDecodeError, None) mock.quiet))
      as (_ & Hdecode & _); [reflexivity|].
    eapply (Hdecode []);
      [reflexivity|apply produces_nil|reflexivity|reflexivity|simpl; lia].
  - destruct (List_fails_atomically 2 listAll
                (boot ∅ (withFind (cursorError, None) mock.quiet))
                cursorError None
                (withFind (cursorError, None) mock.quiet))
      as (_ & _ & Hcursor & _); [reflexivity|].
    eapply (Hcursor [testModel]);
      [reflexivity
      |eapply produces_cons; [reflexivity|reflexivity|apply produces_nil]
      |reflexivity|reflexivity|simpl; lia].
  - destruct (List_fails_atomically 1 listAll (boot ∅ mock.quiet)
                mock.noCursor None mock.quiet)
      as (_ & _ & _ & _ & Hempty); [reflexivity|].
    eapply Hempty; [reflexivity|reflexivity|reflexivity|lia].
Defined.

Lemma List_closes_cursor_witness :
  ∃ r w' cs,
    product.List 2 listAll (boot ∅ (withFind (cursorHappy, None) mock.quiet))
      = Some (r, w') ∧
    product.calls w'
      = ([] ++ [product.CalledFind ∅] ++ cs ++ [product.CalledClose])%list ∧
    product.count product.is_Close cs = 0 ∧
    product.count product.is_Close (product.calls w') = 1.
Proof.
  apply (List_closes_cursor 2 listAll (boot ∅ (withFind (cursorHappy, None) mock.quiet))
           cursorHappy None (withFind (cursorHappy, None) mock.quiet));
    reflexivity.
Defined.

(** What [List] does on the cursor of the happy path of [TestList], cut to
    its first product: the calls, in order. *)
Example List_happy_calls :
  (λ r, product.calls r.2) <$>
    product.List 2 listAll (boot ∅ (withFind (cursorHappy, None) mock.quiet))
  = Some [product.CalledFind ∅; product.CalledNext; product.CalledDecode;
          product.CalledNext; product.CalledErr; product.CalledClose].
Proof. reflexivity. Qed.

(** C9, the path on which opening fails: when the cursor cannot be opened,
    [List] returns without a single call of [Close]. *)
Lemma List_open_failure_skips_Close :
  ∃ w',
    product.List 1 listAll
      (boot ∅ (withFind (mock.noCursor, Some randomError) mock.quiet))
    = Some (Fail (Wrap randomError "finding products"), w') ∧
    product.calls w' = [product.CalledFind ∅] ∧
    product.count product.is_Close (product.calls w') ≠ 1.
Proof. eexists. split_and!; [reflexivity|reflexivity|]. simpl. discriminate. Qed.

(** ** store/product over the document store: Update, then Get *)

Lemma matches_uuid (uuid : string) (d : memstore.Doc) :
  memstore.matches {[ "uuid" := product.BString uuid ]} d
  = match d !! "uuid" with
    | Some (memstore.FString s) => bool_decide (uuid = s)
    | _ => false
    end.
Proof.
  unfold memstore.matches. rewrite map_to_list_singleton. cbn [forallb fst snd].
  destruct (d !! "uuid") as [[]|]; try done. apply andb_true_r.
Qed.

(** A field the update sets is found in the updated document. *)
Lemma marshal_union_lookup (p : models.Product) (d : memstore.Doc) k v :
  memstore.marshal p !! k = Some v → (memstore.marshal p ∪ d) !! k = Some v.
Proof. apply lookup_union_Some_l. Qed.

Lemma marshal_fields (p : models.Product) :
  memstore.marshal p !! "uuid" = Some (memstore.FString (models.Uuid p)) ∧
  memstore.marshal p !! "name" = Some (memstore.FString (models.Name p)) ∧
  memstore.marshal p !! "description" = Some (memstore.FString (models.Description p)) ∧
  memstore.marshal p !! "price" = Some (memstore.FFloat (models.Price p)) ∧
  memstore.marshal p !! "attributes"
    = Some (memstore.FAttributes (models.Attributes p)).
Proof. split_and!; reflexivity. Qed.

(** A document that has just been set to a product decodes to that
    product, whatever the document held and whatever the target holds. *)
Lemma unmarshal_marshal_union (p q : models.Product) (d : memstore.Doc) :
  memstore.unmarshal (memstore.marshal p ∪ d) q = (p, None).
Proof.
  unfold memstore.unmarshal, memstore.string_field, memstore.float_field,
    memstore.attributes_field.
  destruct (marshal_fields p) as (Hu & Hn & Hd & Hp & Ha).
  rewrite (marshal_union_lookup p d _ _ Hu), (marshal_union_lookup p d _ _ Hn),
    (marshal_union_lookup p d _ _ Hd), (marshal_union_lookup p d _ _ Hp),
    (marshal_union_lookup p d _ _ Ha).
  by destruct p.
Qed.

Lemma matches_marshal_union (p : models.Product) (d : memstore.Doc) :
  memstore.matches {[ "uuid" := product.BString (models.Uuid p) ]}
    (memstore.marshal p ∪ d) = true.
Proof.
  rewrite matches_uuid.
  rewrite (marshal_union_lookup p d _ _ (proj1 (marshal_fields p))).
  by apply bool_decide_eq_true.
Qed.

(** Updating the first match with a function whose results still match
    leaves the updated document as the first match. *)
Lemma update_first_find_first (flt : product.bsonM) (f : memstore.Doc → memstore.Doc)
    (docs : list memstore.Doc) :
  (∀ d, memstore.matches flt (f d) = true) →
  (∃ d, d ∈ docs ∧ memstore.matches flt d = true) →
  ∃ docs' d,
    memstore.update_first flt f docs = Some docs' ∧
    d ∈ docs ∧ memstore.matches flt d = true ∧
    memstore.find_first flt docs' = Some (f d) ∧
    length docs' = length docs.
Proof.
  intros Hf. induction docs as [|d0 docs IH]; intros (d & Hin & Hd).
  - by apply elem_of_nil in Hin.
  - simpl. destruct (memstore.matches flt d0) eqn:Hd0.
    + exists (f d0 :: docs), d0. simpl. rewrite Hf. split_and!; [done|by left|done..].
    + apply elem_of_cons in Hin as [->|Hin]; [congruence|].
      destruct IH as (docs' & d' & -> & Hin' & Hd' & Hfind & Hlen); [by exists d|].
      exists (d0 :: docs'), d'. simpl. rewrite Hd0.
      split_and!; [done|by right|done|done|by rewrite Hlen].
Qed.

Lemma update_first_no_match (flt : product.bsonM) (f : memstore.Doc → memstore.Doc)
    (docs : list memstore.Doc) :
  memstore.find_first flt docs = None → memstore.update_first flt f docs = None.
Proof.
  induction docs as [|d docs IH]; simpl; [done|].
  destruct (memstore.matches flt d); [done|]. intros Hnone. by rewrite IH.
Qed.

(** The first match of a filter splits the collection: the documents
    before it do not match, it is the document that is updated, and the
    documents after it are left as they are. *)
Lemma update_first_split (flt : product.bsonM) (f : memstore.Doc → memstore.Doc)
    (docs : list memstore.Doc) :
  (∃ d, d ∈ docs ∧ memstore.matches flt d = true) →
  ∃ docs1 d docs2,
    docs = (docs1 ++ d :: docs2)%list ∧
    Forall (λ d0, memstore.matches flt d0 = false) docs1 ∧
    memstore.matches flt d = true ∧
    memstore.update_first flt f docs = Some (docs1 ++ f d :: docs2)%list.
Proof.
  induction docs as [|d0 docs IH]; intros (d & Hin & Hd).
  - by apply elem_of_nil in Hin.
  - destruct (memstore.matches flt d0) eqn:Hd0.
    + exists [], d0, docs. simpl. rewrite Hd0. by split_and!.
    + apply elem_of_cons in Hin as [->|Hin]; [congruence|].
      destruct IH as (docs1 & d' & docs2 & -> & Hbefore & Hd' & Hupdate); [by exists d|].
      exists (d0 :: docs1), d', docs2. simpl. rewrite Hd0, Hupdate.
      split_and!; [done|by constructor|done|done].
Qed.

Lemma find_first_split (flt : product.bsonM) (docs1 docs2 : list memstore.Doc)
    (d : memstore.Doc) :
  Forall (λ d0, memstore.matches flt d0 = false) docs1 →
  memstore.matches flt d = true →
  memstore.find_first flt (docs1 ++ d :: docs2) = Some d.
Proof.
  intros Hbefore Hd. induction Hbefore as [|d0 docs1 Hd0 _ IH]; simpl.
  - by rewrite Hd.
  - by rewrite Hd0.
Qed.

(** C4, as the code has it. [Update] sets the five fields of the record,
    not the whole document. If the store holds a document with the record's
    uuid, [Update] succeeds and returns the caller's pointer, the record
    untouched; in the first such document the uuid, name, description, price
    and attributes are now the record's, zero values included, every other
    field of the document is what it was, and the other documents are as
    they were. A [Get] of that uuid then returns a record equal to the one
    written, in every field. *)
Theorem Update_then_Get (w : product.World memstore.Store) (l : product.loc)
    (r : models.Product) :
  product.heap w !! l = Some r →
  (∃ d, d ∈ memstore.docs (product.store w) ∧
        memstore.matches {[ "uuid" := product.BString (models.Uuid r) ]} d = true) →
  ∃ docs1 d docs2 w1 l' w2,
    memstore.docs (product.store w) = (docs1 ++ d :: docs2)%list ∧
    Forall (λ d0, memstore.matches
                    {[ "uuid" := product.BString (models.Uuid r) ]} d0 = false) docs1 ∧
    memstore.matches {[ "uuid" := product.BString (models.Uuid r) ]} d = true ∧
    product.Update l w = Some (Ok l, w1) ∧
    product.heap w1 = product.heap w ∧
    memstore.docs (product.store w1)
      = (docs1 ++ (memstore.marshal r ∪ d) :: docs2)%list ∧
    (memstore.marshal r ∪ d) !! "uuid" = Some (memstore.FString (models.Uuid r)) ∧
    (memstore.marshal r ∪ d) !! "name" = Some (memstore.FString (models.Name r)) ∧
    (memstore.marshal r ∪ d) !! "description"
      = Some (memstore.FString (models.Description r)) ∧
    (memstore.marshal r ∪ d) !! "price" = Some (memstore.FFloat (models.Price r)) ∧
    (memstore.marshal r ∪ d) !! "attributes"
      = Some (memstore.FAttributes (models.Attributes r)) ∧
    (∀ k, memstore.marshal r !! k = None → (memstore.marshal r ∪ d) !! k = d !! k) ∧
    product.Get {| productcatalog.GetUuid := models.Uuid r |} w1 = (Ok l', w2) ∧
    product.heap w2 !! l' = Some r.
Proof.
  intros Hheap Hdoc.
  destruct (update_first_split
              {[ "uuid" := product.BString (models.Uuid r) ]}
              (λ d, memstore.marshal r ∪ d) (memstore.docs (product.store w)) Hdoc)
    as (docs1 & d & docs2 & Hdocs & Hbefore & Hd & Hupdate).
  exists docs1, d, docs2.
  unfold product.Update, product.call. rewrite Hheap.
  cbn [mbind option_bind product.updateOne memstore.Store_Seams].
  rewrite lookup_singleton_eq, Hupdate.
  eexists _, _, _.
  split; [exact Hdocs|]. split; [exact Hbefore|]. split; [exact Hd|].
  split; [reflexivity|]. split; [reflexivity|]. split; [reflexivity|].
  destruct (marshal_fields r) as (Hu & Hn & Hds & Hp & Ha).
  split; [exact (marshal_union_lookup r d _ _ Hu)|].
  split; [exact (marshal_union_lookup r d _ _ Hn)|].
  split; [exact (marshal_union_lookup r d _ _ Hds)|].
  split; [exact (marshal_union_lookup r d _ _ Hp)|].
  split; [exact (marshal_union_lookup r d _ _ Ha)|].
  split; [intros k Hk; by apply lookup_union_r|].
  unfold product.Get, product.call, product.alloc, product.write.
  cbn [product.findOne memstore.Store_Seams product.store product.heap
       memstore.docs productcatalog.GetUuid].
  rewrite (find_first_split _ docs1 docs2 _ Hbefore (matches_marshal_union r d)).
  rewrite unmarshal_marshal_union.
  split; [reflexivity|]. cbn [product.heap product.store memstore.docs].
  apply lookup_insert_eq.
Qed.

Lemma Update_then_Get_witness :
  ∃ docs1 d docs2 w1 l' w2,
    memstore.docs (product.store (boot {[ 0 := blankModel ]} stocked))
      = (docs1 ++ d :: docs2)%list ∧
    Forall (λ d0, memstore.matches
                    {[ "uuid" := product.BString (models.Uuid blankModel) ]} d0 = false)
      docs1 ∧
    memstore.matches {[ "uuid" := product.BString (models.Uuid blankModel) ]} d = true ∧
    product.Update 0 (boot {[ 0 := blankModel ]} stocked) = Some (Ok 0, w1) ∧
    product.heap w1 = product.heap (boot {[ 0 := blankModel ]} stocked) ∧
    memstore.docs (product.store w1)
      = (docs1 ++ (memstore.marshal blankModel ∪ d) :: docs2)%list ∧
    (memstore.marshal blankModel ∪ d) !! "uuid"
      = Some (memstore.FString (models.Uuid blankModel)) ∧
    (memstore.marshal blankModel ∪ d) !! "name"
      = Some (memstore.FString (models.Name blankModel)) ∧
    (memstore.marshal blankModel ∪ d) !! "description"
      = Some (memstore.FString (models.Description blankModel)) ∧
    (memstore.marshal blankModel ∪ d) !! "price"
      = Some (memstore.FFloat (models.Price blankModel)) ∧
    (memstore.marshal blankModel ∪ d) !! "attributes"
      = Some (memstore.FAttributes (models.Attributes blankModel)) ∧
    (∀ k, memstore.marshal blankModel !! k = None →
          (memstore.marshal blankModel ∪ d) !! k = d !! k) ∧
    product.Get {| productcatalog.GetUuid := models.Uuid blankModel |} w1 = (Ok l', w2) ∧
    product.heap w2 !! l' = Some blankModel.
Proof.
  apply (Update_then_Get (boot {[ 0 := blankModel ]} stocked) 0 blankModel).
  - reflexivity.
  - eexists. split; [left|reflexivity].
Defined.

(** C4, the fields that stay: the stored document with the uuid of the
    record has a field that is not one of the record's, and the record has
    that uuid and nothing else. [Update] succeeds; the name of the document
    is now the empty one of the record, but the document is not the
    encoding of the record: the field that is not the record's, and the
    identifier the store gave the document, are still in it. The [Get] that
    follows returns the record all the same. *)
Lemma Update_keeps_other_fields :
  ∃ w1 d l' w2,
    product.Update 0 (boot {[ 0 := blankModel ]} labelled) = Some (Ok 0, w1) ∧
    memstore.docs (product.store w1) = [d] ∧
    d !! "name" = Some (memstore.FString EmptyString) ∧
    d !! "sku" = Some (memstore.FString "A-1") ∧
    d !! "_id" = Some (memstore.FObjectID 0) ∧
    d ≠ memstore.marshal blankModel ∧
    product.Get {| productcatalog.GetUuid := "uuid" |} w1 = (Ok l', w2) ∧
    product.heap w2 !! l' = Some blankModel.
Proof.
  eexists _, _, _, _. split_and!.
  - vm_compute. reflexivity.
  - vm_compute. reflexivity.
  - vm_compute. reflexivity.
  - vm_compute. reflexivity.
  - vm_compute. reflexivity.
  - intros Heq. apply (f_equal (λ m : memstore.Doc, m !! "sku")) in Heq.
    vm_compute in Heq. discriminate Heq.
  - vm_compute. reflexivity.
  - vm_compute. reflexivity.
Qed.

(** The same through the repository alone: it creates a product and then
    updates it with a record that has its uuid and nothing else. The
    identifier the store gave the document at the insert is still in it. *)
Lemma Create_then_Update_keeps_id :
  ∃ w1 w2 d,
    product.Create 0 (boot {[ 0 := testModel; 1 := blankFirst ]} memstore.empty)
      = Some (Ok 0, w1) ∧
    product.Update 1 w1 = Some (Ok 1, w2) ∧
    memstore.docs (product.store w2) = [d] ∧
    d !! "_id" = Some (memstore.FObjectID 0) ∧
    d !! "name" = Some (memstore.FString EmptyString) ∧
    d ≠ memstore.marshal blankFirst.
Proof.
  eexists _, _, _. split_and!.
  - vm_compute. reflexivity.
  - vm_compute. reflexivity.
  - vm_compute. reflexivity.
  - vm_compute. reflexivity.
  - vm_compute. reflexivity.
  - intros Heq. apply (f_equal (λ m : memstore.Doc, m !! "_id")) in Heq.
    vm_compute in Heq. discriminate Heq.
Qed.

(** On a store that holds no document with the record's uuid, [Update]
    succeeds all the same, and the [Get] that follows does not return the
    record. *)
Lemma Update_unknown_uuid_then_Get :
  ∃ w1,
    product.Update 0 (boot {[ 0 := testModel ]} memstore.empty) = Some (Ok 0, w1) ∧
    (product.Get {| productcatalog.GetUuid := models.Uuid testModel |} w1).1
      = Fail (NotFound "uuid").
Proof. eexists. split; [reflexivity|]. by rewrite Get_outcome. Qed.

(** On the document store a delete never fails: deleting the same uuid
    twice succeeds twice. *)
Lemma Delete_twice_on_store (req : productcatalog.DeleteProductRequest)
    (w : product.World memstore.Store) :
  ∃ w1 w2,
    product.Delete req w = (Ok {| productcatalog.Result := "success" |}, w1) ∧
    product.Delete req w1 = (Ok {| productcatalog.Result := "success" |}, w2).
Proof.
  assert (∀ w0 : product.World memstore.Store,
    (product.Delete req w0).1 = Ok {| productcatalog.Result := "success" |}) as Hok.
  { intros w0. rewrite Delete_outcome.
    cbn [product.deleteOne memstore.Store_Seams].
    by destruct (memstore.delete_first _ _). }
  exists (product.Delete req w).2, (product.Delete req (product.Delete req w).2).2.
  split.
  - rewrite <- (Hok w). by destruct (product.Delete req w).
  - rewrite <- (Hok (product.Delete req w).2).
    by destruct (product.Delete req (product.Delete req w).2).
Qed.

(** ** Termination of the iteration, and the scenario of the integration test *)

Lemma halts_mono {C : Type} `{!product.Cursor C} (n m : nat) (c : C) :
  (n ≤ m)%nat → halts n c = true → halts m c = true.
Proof.
  revert m c. induction n as [|n IH]; intros m c Hle; [done|].
  destruct m as [|m]; [lia|]. simpl.
  destruct (product.Next c) as [[] c']; [|done].
  destruct (product.Decode c' models.zero).2; [done|]. apply IH. lia.
Qed.

(** The cursor of the test file ends after the products it has left. *)
Lemma MockCursor_halts (m : mock.MockCursor) :
  halts (Datatypes.S (Z.to_nat (Z.of_nat (length (mock.data m)) - mock.index m))) m
  = true.
Proof.
  destruct m as [data index decodeErr err]; cbn [mock.data mock.index].
  remember (Z.to_nat (Z.of_nat (length data) - index)) as n eqn:Hn. revert index Hn.
  induction n as [|n IH]; intros index Hn;
    cbn [halts product.Next mock.MockCursor_Cursor]; unfold mock.MockCursor_Next;
    cbn [mock.index mock.data mock.decodeErr mock.err];
    (case_bool_decide; [|done]);
    (destruct ((product.Decode _ _).2); [done|]).
  - lia.
  - apply IH. lia.
Qed.

(** A cursor of the document store ends after the documents it has left. *)
Lemma MemCursor_halts (c : memstore.MemCursor) :
  halts (Datatypes.S (length (memstore.pending c))) c = true.
Proof.
  destruct c as [cur pending]. revert cur.
  induction pending as [|d pending IH]; intros cur; [done|].
  cbn [halts length memstore.pending product.Next memstore.MemCursor_Cursor].
  destruct (product.Decode _ _).2; [done|]. apply (IH (Some d)).
Qed.

(** On the document store [List] returns, given one call of [Next] more
    than there are documents. *)
Lemma List_on_store_returns (req : productcatalog.ListProductsRequest)
    (w : product.World memstore.Store) :
  ∃ r w',
    product.List (Datatypes.S (length (memstore.docs (product.store w)))) req w
    = Some (r, w').
Proof.
  unfold product.List, product.call.
  cbn [product.find memstore.Store_Seams].
  match goal with |- context [product.List_body ?n ?c ?w0] =>
    destruct (List_body_halts n c w0) as (r & c' & w' & cs & -> & _)
  end.
  - eapply halts_mono; [|apply MemCursor_halts].
    cbn [memstore.pending]. pose proof (List.filter_length_le
      (memstore.matches ∅) (memstore.docs (product.store w))). lia.
  - destruct (product.Close c'). by eexists _, _.
Qed.

(** Create, get, delete, get again, through the handlers and over the
    document store: the product comes back with the first uuid and its other
    fields as sent, and is not found once deleted. *)
Example catalog_scenario :
  ∃ w1 w2 w3 w4,
    server.CreateProduct ascending AsInterface NewValue testProduct
      (boot ∅ memstore.empty) = Some (Ok createdProduct, w1) ∧
    server.GetProduct descending NewValue {| productcatalog.GetUuid := "uuid-0" |} w1
      = Some (Ok createdProduct, w2) ∧
    server.DeleteProduct {| productcatalog.DeleteUuid := "uuid-0" |} w2
      = (Ok {| productcatalog.Result := "success" |}, w3) ∧
    server.GetProduct descending NewValue {| productcatalog.GetUuid := "uuid-0" |} w3
      = Some (Fail (Wrap (NotFound "uuid-0") "getting product with uuid uuid-0"), w4).
Proof.
  eexists _, _, _, _. split_and!; vm_compute; reflexivity.
Qed.

(** * Further properties *)

(** ** mapper: from the model to the wire *)

(** The wire product [ProductModelToProductProtobuf] builds when every
    attribute converts. *)
Lemma to_protobuf_value (ord : RangeOrder) (conv : Dyn → result Value)
    (dbProduct : models.Product) :
  (∀ k p, entries (models.Attributes dbProduct) !! k = Some p → ∃ v, conv p = Ok v) →
  mapper.ProductModelToProductProtobuf ord conv dbProduct
  = Ok {| productcatalog.Uuid := models.Uuid dbProduct;
          productcatalog.Name := models.Name dbProduct;
          productcatalog.Description := models.Description dbProduct;
          productcatalog.Price := models.Price dbProduct;
          productcatalog.Attributes :=
            Some (converted conv <$> entries (models.Attributes dbProduct)) |}.
Proof.
  intros Hall. unfold mapper.ProductModelToProductProtobuf.
  rewrite to_protobuf_loop_Ok.
  - rewrite foldl_insert_fmap by apply range_NoDup.
    by rewrite range_to_map, (right_id_L ∅ (∪)).
  - apply Forall_forall. intros [k p] Hin. apply elem_of_range in Hin. by eapply Hall.
Qed.

(** X1. The conversion of a model to the wire succeeds exactly when every
    attribute value converts, and then gives the product with the same
    scalar fields and, under every attribute name, the converted value: the
    result does not depend on the iteration order, and a model without an
    attribute map gives the empty map. *)
Theorem ProductModelToProductProtobuf_Ok_iff (ord : RangeOrder)
    (conv : Dyn → result Value) (dbProduct : models.Product)
    (product : productcatalog.Product) :
  mapper.ProductModelToProductProtobuf ord conv dbProduct = Ok product ↔
  (∀ k p, entries (models.Attributes dbProduct) !! k = Some p → ∃ v, conv p = Ok v) ∧
  product = {| productcatalog.Uuid := models.Uuid dbProduct;
               productcatalog.Name := models.Name dbProduct;
               productcatalog.Description := models.Description dbProduct;
               productcatalog.Price := models.Price dbProduct;
               productcatalog.Attributes :=
                 Some (converted conv <$> entries (models.Attributes dbProduct)) |}.
Proof.
  split.
  - intros Hok. assert (∀ k p, entries (models.Attributes dbProduct) !! k = Some p
                          → ∃ v, conv p = Ok v) as Hall
      by (intros k p; by eapply to_protobuf_Ok_inv).
    split; [done|]. rewrite (to_protobuf_value ord conv dbProduct Hall) in Hok.
    by injection Hok.
  - intros [Hall ->]. by apply to_protobuf_value.
Qed.

Lemma ProductModelToProductProtobuf_Ok_iff_witness :
  mapper.ProductModelToProductProtobuf descending NewValue testModel = Ok testModelWire.
Proof.
  apply (ProductModelToProductProtobuf_Ok_iff descending NewValue testModel testModelWire).
  split; [|reflexivity].
  intros k p Hk.
  change (entries (models.Attributes testModel))
    with ({[ "color" := DString "blue" ]} : gmap string Dyn) in Hk.
  apply lookup_singleton_Some in Hk as [_ <-]. by eexists.
Defined.

(** X2. A model whose attribute values convert to wire values that read
    back as themselves goes to the wire and back to the same model, except
    that a missing attribute map comes back as an empty one. *)
Theorem model_roundtrip (ord ord' : RangeOrder) (AsInterface : Value → Dyn)
    (conv : Dyn → result Value) (dbProduct : models.Product) :
  (∀ k p, entries (models.Attributes dbProduct) !! k = Some p →
          ∃ v, conv p = Ok v ∧ AsInterface v = p) →
  ∃ product,
    mapper.ProductModelToProductProtobuf ord conv dbProduct = Ok product ∧
    mapper.ProductProtobufToProductModel ord' AsInterface product
      = Ok (models.set_Attributes
              (Some (entries (models.Attributes dbProduct))) dbProduct).
Proof.
  intros Hrep. eexists. split.
  - apply to_protobuf_value. intros k p Hk.
    destruct (Hrep k p Hk) as (v & Hv & _). by exists v.
  - rewrite to_model_value. unfold models.set_Attributes; simpl. do 3 f_equal.
    apply map_eq; intros k. rewrite !lookup_fmap.
    destruct (entries (models.Attributes dbProduct) !! k) as [p|] eqn:Hk; simpl; [|done].
    destruct (Hrep k p Hk) as (v & Hv & Hp). unfold converted. by rewrite Hv, Hp.
Qed.

Lemma model_roundtrip_witness :
  ∃ product,
    mapper.ProductModelToProductProtobuf ascending NewValue testModel = Ok product ∧
    mapper.ProductProtobufToProductModel descending AsInterface product
      = Ok (models.set_Attributes
              (Some (entries (models.Attributes testModel))) testModel).
Proof.
  apply (model_roundtrip ascending descending AsInterface NewValue testModel).
  intros k p Hk.
  change (entries (models.Attributes testModel))
    with ({[ "color" := DString "blue" ]} : gmap string Dyn) in Hk.
  apply lookup_singleton_Some in Hk as [_ <-].
  exists (StringValue "blue"). by split.
Defined.

(** X3. When exactly one attribute of a model has no wire form, the
    conversion fails with the rejection of that attribute under its name,
    whatever the iteration order. *)
Theorem ProductModelToProductProtobuf_single_rejection (ord : RangeOrder)
    (conv : Dyn → result Value) (dbProduct : models.Product)
    (k : string) (p : Dyn) (e : error) :
  entries (models.Attributes dbProduct) !! k = Some p →
  conv p = Fail e →
  (∀ k' p', k' ≠ k → entries (models.Attributes dbProduct) !! k' = Some p' →
            ∃ v, conv p' = Ok v) →
  mapper.ProductModelToProductProtobuf ord conv dbProduct
  = Fail (Wrap e ("parsing attribute " +:+ quoted k)).
Proof.
  intros Hk Hp Hothers.
  destruct (mapper.ProductModelToProductProtobuf ord conv dbProduct)
    as [product|err] eqn:Hconv.
  - destruct (to_protobuf_Ok_inv _ _ _ _ Hconv k p Hk) as [v Hv]. congruence.
  - destruct (to_protobuf_Fail _ _ _ _ Hconv) as (k' & p' & e' & Hk' & Hp' & ->).
    destruct (decide (k' = k)) as [->|Hne].
    + rewrite Hk in Hk'. injection Hk' as <-. rewrite Hp in Hp'. by injection Hp' as <-.
    + destruct (Hothers k' p' Hne Hk') as [v Hv]. congruence.
Qed.

Lemma ProductModelToProductProtobuf_single_rejection_witness :
  mapper.ProductModelToProductProtobuf ascending NewValue mixedModel
    = Fail (Wrap UnsupportedValueKind ("parsing attribute " +:+ quoted "handle")) ∧
  mapper.ProductModelToProductProtobuf descending NewValue mixedModel
    = Fail (Wrap UnsupportedValueKind ("parsing attribute " +:+ quoted "handle")).
Proof.
  assert (∀ k' p', k' ≠ "handle" →
            entries (models.Attributes mixedModel) !! k' = Some p' →
            ∃ v, NewValue p' = Ok v) as Hothers.
  { intros k' p' Hne Hk'.
    change (entries (models.Attributes mixedModel))
      with (<[ "color" := DString "red" ]> {[ "handle" := DOther "chan int" ]}
            : gmap string Dyn) in Hk'.
    apply lookup_insert_Some in Hk' as [[_ <-]|[_ Hk']]; [by eexists|].
    apply lookup_singleton_Some in Hk' as [<- _]. done. }
  split.
  - by apply (ProductModelToProductProtobuf_single_rejection ascending NewValue
                mixedModel "handle" (DOther "chan int") UnsupportedValueKind).
  - by apply (ProductModelToProductProtobuf_single_rejection descending NewValue
                mixedModel "handle" (DOther "chan int") UnsupportedValueKind).
Defined.

(** ** mapper: lists of models *)

Lemma to_response_loop_app (ord : RangeOrder) (conv : Dyn → result Value)
    (ds rest : list models.Product) (ps acc : list productcatalog.Product) :
  Forall2 (λ d p, mapper.ProductModelToProductProtobuf ord conv d = Ok p) ds ps →
  mapper.to_response_loop ord conv (ds ++ rest) acc
  = mapper.to_response_loop ord conv rest (acc ++ ps).
Proof.
  intros Hall. revert acc.
  induction Hall as [|d p ds ps Hd _ IH]; intros acc; simpl.
  - by rewrite app_nil_r.
  - by rewrite Hd, IH, <- app_assoc.
Qed.

Lemma to_response_loop_Ok_Forall2 (ord : RangeOrder) (conv : Dyn → result Value)
    (ds : list models.Product) (acc r : list productcatalog.Product) :
  mapper.to_response_loop ord conv ds acc = Ok r →
  ∃ ps, r = (acc ++ ps)%list ∧
        Forall2 (λ d p, mapper.ProductModelToProductProtobuf ord conv d = Ok p) ds ps.
Proof.
  revert acc. induction ds as [|d ds IH]; intros acc; simpl.
  - intros [= <-]. exists []. by rewrite app_nil_r.
  - destruct (mapper.ProductModelToProductProtobuf ord conv d) as [p|e] eqn:Hd; [|done].
    intros Hloop. destruct (IH _ Hloop) as (ps & -> & Hps).
    exists (p :: ps). split; [by rewrite <- app_assoc|by constructor].
Qed.

(** X4. The conversion of a list of models succeeds exactly when every
    model converts, and the response then holds the wire product of each
    model, one for one and in the order of the list; the empty list gives
    the empty response. *)
Theorem ProductModelListToListProductsResponse_Ok_iff (ord : RangeOrder)
    (conv : Dyn → result Value) (dbProducts : list models.Product)
    (response : productcatalog.ListProductsResponse) :
  mapper.ProductModelListToListProductsResponse ord conv dbProducts = Ok response ↔
  Forall2 (λ d p, mapper.ProductModelToProductProtobuf ord conv d = Ok p)
    dbProducts (productcatalog.Products response).
Proof.
  unfold mapper.ProductModelListToListProductsResponse. split.
  - destruct (mapper.to_response_loop ord conv dbProducts []) as [ps|e] eqn:Hloop; [|done].
    intros [= <-]. apply to_response_loop_Ok_Forall2 in Hloop as (ps' & -> & Hps).
    done.
  - intros Hall.
    pose proof (to_response_loop_app ord conv dbProducts [] _ [] Hall) as Hloop.
    rewrite app_nil_r in Hloop. rewrite Hloop. simpl. by destruct response.
Qed.

Lemma ProductModelListToListProductsResponse_Ok_iff_witness :
  mapper.ProductModelListToListProductsResponse ascending NewValue [testModel; testModel]
    = Ok {| productcatalog.Products := [testModelWire; testModelWire] |} ∧
  mapper.ProductModelListToListProductsResponse ascending NewValue []
    = Ok {| productcatalog.Products := [] |}.
Proof.
  split.
  - apply (ProductModelListToListProductsResponse_Ok_iff ascending NewValue
             [testModel; testModel]
             {| productcatalog.Products := [testModelWire; testModelWire] |}).
    repeat constructor.
  - apply (ProductModelListToListProductsResponse_Ok_iff ascending NewValue []
             {| productcatalog.Products := [] |}).
    constructor.
Defined.

(** X5. The conversion of a list stops at the first model that does not
    convert and returns that model's error as it is: the models before it
    do not show in the result and the models after it are not looked at. *)
Theorem ProductModelListToListProductsResponse_first_failure (ord : RangeOrder)
    (conv : Dyn → result Value) (before after : list models.Product)
    (dbProduct : models.Product) (err : error) :
  Forall (λ d, ∃ p, mapper.ProductModelToProductProtobuf ord conv d = Ok p) before →
  mapper.ProductModelToProductProtobuf ord conv dbProduct = Fail err →
  mapper.ProductModelListToListProductsResponse ord conv
    (before ++ dbProduct :: after) = Fail err.
Proof.
  intros Hbefore Hfail.
  assert (∃ ps, Forall2 (λ d p, mapper.ProductModelToProductProtobuf ord conv d = Ok p)
                  before ps) as [ps Hps].
  { induction Hbefore as [|d ds [p Hp] _ [ps Hps]]; [by exists []|].
    exists (p :: ps). by constructor. }
  unfold mapper.ProductModelListToListProductsResponse.
  rewrite (to_response_loop_app ord conv before _ ps [] Hps). simpl.
  by rewrite Hfail.
Qed.

Lemma ProductModelListToListProductsResponse_first_failure_witness :
  mapper.ProductModelListToListProductsResponse ascending NewValue
    ([testModel] ++ mixedModel :: [testModel])
  = Fail (Wrap UnsupportedValueKind ("parsing attribute " +:+ quoted "handle")).
Proof.
  apply (ProductModelListToListProductsResponse_first_failure ascending NewValue
           [testModel] [testModel] mixedModel).
  - repeat constructor. by eexists.
  - reflexivity.
Defined.

(** ** store/product: Get and Update over any seams *)

Section repository_more.

Context {S C : Type} `{!product.Cursor C} `{!product.Seams S C}.

(** [Get], step by step. *)
Lemma Get_run (req : productcatalog.GetProductRequest) (w : product.World S)
    (p : models.Product) (err : option error) (s' : S) :
  product.findOne {[ "uuid" := product.BString (productcatalog.GetUuid req) ]}
    models.zero (product.store w) = ((p, err), s') →
  product.Get req w
  = (match err with
     | Some ErrNoDocuments => Fail (NotFound (productcatalog.GetUuid req))
     | Some err =>
         Fail (Wrap err ("getting product with uuid "
                           +:+ quoted (productcatalog.GetUuid req)))
     | None => Ok (fresh (dom (product.heap w)))
     end,
     {| product.heap := <[fresh (dom (product.heap w)) := p]> (product.heap w);
        product.store := s';
        product.calls :=
          (product.calls w
           ++ [product.CalledFindOne
                 {[ "uuid" := product.BString (productcatalog.GetUuid req) ]}])%list |}).
Proof.
  intros Hfind. unfold product.Get, product.alloc, product.call, product.write.
  cbn [product.store product.heap product.calls]. rewrite Hfind.
  cbn [product.store product.heap product.calls]. rewrite insert_insert_eq.
  destruct err as [[]|]; reflexivity.
Qed.

(** X6. When the lookup decodes a document without error, [Get] returns a
    pointer that was not in use before, to the product decoded; every
    product the process already held is still there, unchanged; and the
    store was asked once, for the uuid of the request. *)
Theorem Get_returns_decoded (req : productcatalog.GetProductRequest)
    (w : product.World S) (p : models.Product) (s' : S) :
  product.findOne {[ "uuid" := product.BString (productcatalog.GetUuid req) ]}
    models.zero (product.store w) = ((p, None), s') →
  ∃ l w',
    product.Get req w = (Ok l, w') ∧
    product.heap w !! l = None ∧
    product.heap w' !! l = Some p ∧
    product.heap w ⊆ product.heap w' ∧
    product.store w' = s' ∧
    product.calls w'
      = (product.calls w
         ++ [product.CalledFindOne
               {[ "uuid" := product.BString (productcatalog.GetUuid req) ]}])%list.
Proof.
  intros Hfind. eexists _, _. split; [exact (Get_run req w p None s' Hfind)|].
  assert (product.heap w !! fresh (dom (product.heap w)) = None) as Hfresh
    by apply not_elem_of_dom, is_fresh.
  cbn [product.store product.heap product.calls].
  split_and!; [done|by rewrite lookup_insert_eq|by apply insert_subseteq|done..].
Qed.

(** [Update], step by step: the record is read through the pointer and
    handed whole to the store, under its own uuid. *)
Lemma Update_run (productToUpdate : product.loc) (w : product.World S)
    (r : models.Product) res err s' :
  product.heap w !! productToUpdate = Some r →
  product.updateOne {[ "uuid" := product.BString (models.Uuid r) ]}
    {[ "$set" := product.BProduct r ]} (product.store w) = ((res, err), s') →
  product.Update productToUpdate w
  = Some (match err with
          | Some cause =>
              Fail (Wrap cause ("updating product with uuid " +:+ quoted (models.Uuid r)))
          | None => Ok productToUpdate
          end,
          {| product.heap := product.heap w;
             product.store := s';
             product.calls :=
               (product.calls w
                ++ [product.CalledUpdateOne
                      {[ "uuid" := product.BString (models.Uuid r) ]}
                      {[ "$set" := product.BProduct r ]}])%list |}).
Proof.
  intros Hheap Hupdate. unfold product.Update, product.call.
  rewrite Hheap; cbn [mbind option_bind]. rewrite Hupdate.
  by destruct err.
Qed.

(** X7. [Update] asks the store once, to set the whole record on the
    document with the record's uuid, and never touches the record itself.
    It succeeds, returning the caller's pointer, whenever the store reports
    no error, whatever the store says of the number of documents matched;
    when the store reports an error it returns it wrapped under a message
    that holds the uuid. *)
Theorem Update_sets_whole_record (productToUpdate : product.loc)
    (w : product.World S) (r : models.Product) res err s' :
  product.heap w !! productToUpdate = Some r →
  product.updateOne {[ "uuid" := product.BString (models.Uuid r) ]}
    {[ "$set" := product.BProduct r ]} (product.store w) = ((res, err), s') →
  ∃ result w',
    product.Update productToUpdate w = Some (result, w') ∧
    product.heap w' = product.heap w ∧
    product.store w' = s' ∧
    product.calls w'
      = (product.calls w
         ++ [product.CalledUpdateOne
               {[ "uuid" := product.BString (models.Uuid r) ]}
               {[ "$set" := product.BProduct r ]}])%list ∧
    (err = None → result = Ok productToUpdate) ∧
    (∀ cause, err = Some cause →
       result = Fail (Wrap cause ("updating product with uuid "
                                    +:+ quoted (models.Uuid r))) ∧
       Error (Wrap cause ("updating product with uuid " +:+ quoted (models.Uuid r)))
         = ("updating product with uuid " +:+ quoted (models.Uuid r))
           +:+ ": " +:+ Error cause).
Proof.
  intros Hheap Hupdate. eexists _, _.
  split; [exact (Update_run _ _ _ _ _ _ Hheap Hupdate)|].
  cbn [product.store product.heap product.calls].
  split_and!; [done..| |]; by intros; subst.
Qed.

End repository_more.

Lemma Get_returns_decoded_witness :
  ∃ l w',
    product.Get getUuid
      (boot {[ 0 := testModel ]} (withFindOne (λ _, (mixedModel, None)) mock.quiet))
      = (Ok l, w') ∧
    l ≠ 0 ∧
    product.heap w' !! l = Some mixedModel ∧
    product.heap w' !! 0 = Some testModel.
Proof.
  destruct (Get_returns_decoded getUuid
              (boot {[ 0 := testModel ]} (withFindOne (λ _, (mixedModel, None)) mock.quiet))
              mixedModel (withFindOne (λ _, (mixedModel, None)) mock.quiet))
    as (l & w' & Hget & Hfresh & Hl & Hsub & _); [reflexivity|].
  exists l, w'. split_and!; [done| |done|].
  - intros ->. cbn [boot product.heap] in Hfresh. by rewrite lookup_singleton_eq in Hfresh.
  - eapply lookup_weaken; [|exact Hsub]. cbn [boot product.heap].
    apply lookup_singleton_eq.
Defined.

Lemma Update_sets_whole_record_witness :
  (∃ result w',
     product.Update (C := mock.MockCursor) 0 (boot {[ 0 := testModel ]} mock.quiet)
       = Some (result, w') ∧
     product.heap w' = {[ 0 := testModel ]} ∧
     result = Ok 0) ∧
  (∃ result w',
     product.Update (C := mock.MockCursor) 0
       (boot {[ 0 := testModel ]} (withUpdate (None, Some randomError) mock.quiet))
       = Some (result, w') ∧
     result = Fail (Wrap randomError ("updating product with uuid " +:+ quoted "uuid"))).
Proof.
  split.
  - destruct (Update_sets_whole_record (C := mock.MockCursor) 0
                (boot {[ 0 := testModel ]} mock.quiet) testModel
                (Some {| mongo.MatchedCount := 0 |}) None mock.quiet)
      as (result & w' & Hrun & Hheap & _ & _ & Hok & _); [reflexivity..|].
    exists result, w'. split_and!; [done|done|by apply Hok].
  - destruct (Update_sets_whole_record (C := mock.MockCursor) 0
                (boot {[ 0 := testModel ]} (withUpdate (None, Some randomError) mock.quiet))
                testModel None (Some randomError)
                (withUpdate (None, Some randomError) mock.quiet))
      as (result & w' & Hrun & _ & _ & _ & _ & Hfail); [reflexivity..|].
    exists result, w'. split; [done|]. by apply Hfail.
Defined.

(** ** store/product: what List returns, and what it calls *)

Section repository_list_more.

Context {S C : Type} `{!product.Cursor C} `{!product.Seams S C}.

(** The loop over documents that decode, in full: the pointers are new and
    distinct, the heap only grows, and each turn is a call of [Next] and a
    call of [Decode]. *)
Lemma List_loop_trace (cur c1 : C) (ps : list models.Product) :
  produces cur ps c1 →
  ∀ fuel products (w : product.World S),
  ∃ ls w',
    product.List_loop (length ps + fuel) cur products w
      = product.List_loop fuel c1 (products ++ ls)%list w' ∧
    Forall2 (λ l p, product.heap w' !! l = Some p) ls ps ∧
    NoDup ls ∧
    Forall (λ l, product.heap w !! l = None) ls ∧
    product.heap w ⊆ product.heap w' ∧
    product.store w' = product.store w ∧
    product.calls w' = (product.calls w ++ turns (length ps))%list.
Proof.
  induction 1 as [c|c c1 p ps c' Hnext Hdecode _ IH]; intros fuel products w.
  - exists [], w. rewrite !app_nil_r.
    split_and!; [done|constructor|constructor|constructor|done|done|done].
  - cbn [length Nat.add product.List_loop]. rewrite Hnext, Hdecode.
    unfold product.alloc, product.write, product.note; cbn.
    set (l := fresh (dom (product.heap w))).
    set (w1 := {| product.heap := _; product.store := _; product.calls := _ |}).
    destruct (IH fuel (products ++ [l])%list w1)
      as (ls & w' & Hloop & Hls & Hnd & Hnew & Hheap & Hstore & Hcalls).
    assert (product.heap w !! l = None) as Hfresh
      by (apply not_elem_of_dom, is_fresh).
    assert (product.heap w ⊆ product.heap w1) as Hsub.
    { subst w1; simpl. rewrite insert_insert_eq. by apply insert_subseteq. }
    assert (product.heap w1 !! l = Some p) as Hl
      by (subst w1; simpl; by rewrite lookup_insert_eq).
    exists (l :: ls), w'. split_and!.
    + rewrite Hloop. by rewrite <- app_assoc.
    + constructor; [|done]. by eapply lookup_weaken.
    + constructor; [|done]. intros Hin.
      rewrite Forall_forall in Hnew. specialize (Hnew l Hin). congruence.
    + constructor; [done|]. eapply Forall_impl; [exact Hnew|].
      intros l' Hl'. simpl in Hl'. exact (lookup_weaken_None _ _ _ Hl' Hsub).
    + by etrans.
    + by rewrite Hstore.
    + rewrite Hcalls. subst w1; simpl. rewrite <- !app_assoc. reflexivity.
Qed.

(** [List] on a cursor that hands out [ps] and is then exhausted. *)
Lemma List_run_exhausted (fuel : nat) (req : productcatalog.ListProductsRequest)
    (w : product.World S) (cur c1 c2 : C) (s1 : S) (ps : list models.Product) :
  product.find ∅ (product.store w) = ((cur, None), s1) →
  produces cur ps c1 →
  product.Next c1 = (false, c2) →
  length ps < fuel →
  ∃ ls w',
    product.List fuel req w
      = Some (match product.Err c2 with
              | Some e => Fail (Wrap e "cursor error")
              | None => Ok ls
              end, w') ∧
    Forall2 (λ l p, product.heap w' !! l = Some p) ls ps ∧
    NoDup ls ∧
    Forall (λ l, product.heap w !! l = None) ls ∧
    product.heap w ⊆ product.heap w' ∧
    product.store w' = s1 ∧
    product.calls w'
      = (product.calls w ++ [product.CalledFind ∅] ++ turns (length ps)
         ++ [product.CalledNext; product.CalledErr; product.CalledClose])%list.
Proof.
  intros Hfind Hps Hnext Hfuel.
  unfold product.List, product.call. rewrite Hfind.
  replace fuel with (length ps + Datatypes.S (fuel - Datatypes.S (length ps))) by lia.
  unfold product.List_body.
  match goal with |- context [product.List_loop _ _ _ ?w0] =>
    destruct (List_loop_trace cur c1 ps Hps
                (Datatypes.S (fuel - Datatypes.S (length ps))) [] w0)
      as (ls & w' & -> & Hls & Hnd & Hnew & Hheap & Hstore & Hcalls)
  end.
  cbn [product.List_loop]. rewrite Hnext.
  exists ls.
  destruct (product.Err c2); destruct (product.Close c2) as [? ?];
    eexists; (split; [reflexivity|]);
    cbn [product.note product.heap product.store product.calls] in *;
    rewrite Hcalls, <- !app_assoc; by split_and!.
Qed.

(** [List] on a cursor that hands out [ps] and then a document that
    does not decode. *)
Lemma List_run_undecodable (fuel : nat) (req : productcatalog.ListProductsRequest)
    (w : product.World S) (cur c1 c2 : C) (s1 : S) (ps : list models.Product)
    (p : models.Product) (e : error) :
  product.find ∅ (product.store w) = ((cur, None), s1) →
  produces cur ps c1 →
  product.Next c1 = (true, c2) →
  product.Decode c2 models.zero = (p, Some e) →
  length ps < fuel →
  ∃ w',
    product.List fuel req w = Some (Fail (Wrap e "decoding product"), w') ∧
    product.heap w ⊆ product.heap w' ∧
    product.store w' = s1 ∧
    product.calls w'
      = (product.calls w ++ [product.CalledFind ∅] ++ turns (length ps)
         ++ [product.CalledNext; product.CalledDecode; product.CalledClose])%list.
Proof.
  intros Hfind Hps Hnext Hdecode Hfuel.
  unfold product.List, product.call. rewrite Hfind.
  replace fuel with (length ps + Datatypes.S (fuel - Datatypes.S (length ps))) by lia.
  unfold product.List_body.
  match goal with |- context [product.List_loop _ _ _ ?w0] =>
    destruct (List_loop_trace cur c1 ps Hps
                (Datatypes.S (fuel - Datatypes.S (length ps))) [] w0)
      as (ls & w' & -> & Hls & Hnd & Hnew & Hheap & Hstore & Hcalls)
  end.
  cbn [product.List_loop]. rewrite Hnext. cbn. rewrite Hdecode.
  destruct (product.Close c2) as [? ?]. eexists. split; [reflexivity|].
  unfold product.write.
  cbn [product.note product.heap product.store product.calls] in *.
  split_and!.
  - etrans; [exact Hheap|]. rewrite insert_insert_eq. apply insert_subseteq.
    apply not_elem_of_dom, is_fresh.
  - done.
  - rewrite Hcalls, <- !app_assoc. done.
Qed.

(** X8. The pointers [List] returns are pairwise distinct and none was in
    use before the call: each document is decoded into an object of its own,
    in the order of the cursor, and no product the process already held is
    changed. *)
Theorem List_returns_distinct_pointers (fuel : nat)
    (req : productcatalog.ListProductsRequest)
    (w : product.World S) (cur c1 c2 : C) (s1 : S) (ps : list models.Product) :
  product.find ∅ (product.store w) = ((cur, None), s1) →
  produces cur ps c1 →
  product.Next c1 = (false, c2) →
  product.Err c2 = None →
  length ps < fuel →
  ∃ ls w',
    product.List fuel req w = Some (Ok ls, w') ∧
    Forall2 (λ l p, product.heap w' !! l = Some p) ls ps ∧
    NoDup ls ∧
    Forall (λ l, product.heap w !! l = None) ls ∧
    product.heap w ⊆ product.heap w'.
Proof.
  intros Hfind Hps Hnext Herr Hfuel.
  destruct (List_run_exhausted fuel req w cur c1 c2 s1 ps Hfind Hps Hnext Hfuel)
    as (ls & w' & Hlist & Hls & Hnd & Hnew & Hheap & _).
  rewrite Herr in Hlist. by exists ls, w'.
Qed.

(** X9. [List] asks the cursor for its error only once the cursor is
    exhausted: after a run of documents that decode, the calls are [Next],
    [Err] and [Close]; if instead a document does not decode, they are
    [Next], [Decode] and [Close], and [Err] is never called. *)
Theorem List_call_sequence (fuel : nat) (req : productcatalog.ListProductsRequest)
    (w : product.World S) (cur c1 c2 : C) (s1 : S) (ps : list models.Product) :
  product.find ∅ (product.store w) = ((cur, None), s1) →
  produces cur ps c1 →
  length ps < fuel →
  (product.Next c1 = (false, c2) →
   ∃ r w',
     product.List fuel req w = Some (r, w') ∧
     product.calls w'
       = (product.calls w ++ [product.CalledFind ∅] ++ turns (length ps)
          ++ [product.CalledNext; product.CalledErr; product.CalledClose])%list) ∧
  (∀ p e,
     product.Next c1 = (true, c2) →
     product.Decode c2 models.zero = (p, Some e) →
     ∃ r w',
       product.List fuel req w = Some (r, w') ∧
       product.calls w'
         = (product.calls w ++ [product.CalledFind ∅] ++ turns (length ps)
            ++ [product.CalledNext; product.CalledDecode; product.CalledClose])%list).
Proof.
  intros Hfind Hps Hfuel. split.
  - intros Hnext.
    destruct (List_run_exhausted fuel req w cur c1 c2 s1 ps Hfind Hps Hnext Hfuel)
      as (ls & w' & Hlist & _ & _ & _ & _ & _ & Hcalls).
    by eexists _, w'.
  - intros p e Hnext Hdecode.
    destruct (List_run_undecodable fuel req w cur c1 c2 s1 ps p e
                Hfind Hps Hnext Hdecode Hfuel) as (w' & Hlist & _ & _ & Hcalls).
    by eexists _, w'.
Qed.

End repository_list_more.

(** ** store/product: the cursor of the tests *)

(** From its [i]-th product on, the cursor of the tests hands out the
    products it holds, in order, when it has no decoding error. *)
Lemma MockCursor_produces (data : list models.Product) (err : option error) (i : nat) :
  (i ≤ length data)%nat →
  produces {| mock.data := data; mock.index := Z.of_nat i;
              mock.decodeErr := None; mock.err := err |}
    (drop i data)
    {| mock.data := data; mock.index := Z.of_nat (length data);
       mock.decodeErr := None; mock.err := err |}.
Proof.
  remember (length data - i) as n eqn:Hn. revert i Hn.
  induction n as [|n IH]; intros i Hn Hi.
  - assert (i = length data) as -> by lia. rewrite drop_all. constructor.
  - destruct (data !! i) as [x|] eqn:Hx; [|apply lookup_ge_None in Hx; lia].
    rewrite (drop_S _ _ _ Hx).
    eapply produces_cons; [| |apply (IH (Datatypes.S i)); lia].
    + cbn [product.Next mock.MockCursor_Cursor]. unfold mock.MockCursor_Next.
      cbn [mock.index mock.data mock.decodeErr mock.err].
      rewrite bool_decide_eq_true_2 by lia.
      by replace (Z.of_nat i + 1)%Z with (Z.of_nat (Datatypes.S i)) by lia.
    + cbn [product.Decode mock.MockCursor_Cursor]. unfold mock.MockCursor_Decode.
      cbn [mock.index mock.data mock.decodeErr mock.err].
      rewrite bool_decide_eq_false_2 by lia.
      replace (Z.to_nat (Z.of_nat (Datatypes.S i) - 1)) with i by lia.
      by rewrite Hx.
Qed.

Section repository_list_mock.

Context {S : Type} `{!product.Seams S mock.MockCursor}.

(** X10. [List] over the cursor of the tests, for any products it holds:
    with no error set it returns pointers to exactly those products, in
    order; with a cursor error set it fails with that error, whatever the
    products; with a decoding error set it fails with that error if there
    is a product to decode; with a decoding error set, no cursor error and
    no product, it returns the empty list, and the calls it makes are
    [Find], [Next], [Err] and [Close]: [Decode] is not called. *)
Theorem List_over_MockCursor (req : productcatalog.ListProductsRequest)
    (w : product.World S) (data : list models.Product)
    (decodeErr err : option error) (s1 : S) :
  product.find ∅ (product.store w) = ((cursorOver data decodeErr err, None), s1) →
  (decodeErr = None → err = None →
   ∃ ls w',
     product.List (Datatypes.S (length data)) req w = Some (Ok ls, w') ∧
     Forall2 (λ l p, product.heap w' !! l = Some p) ls data) ∧
  (∀ e, decodeErr = None → err = Some e →
     ∃ w', product.List (Datatypes.S (length data)) req w
           = Some (Fail (Wrap e "cursor error"), w')) ∧
  (∀ e, decodeErr = Some e → data ≠ [] →
     ∃ w', product.List (Datatypes.S (length data)) req w
           = Some (Fail (Wrap e "decoding product"), w')) ∧
  (∀ e, decodeErr = Some e → data = [] → err = None →
     ∃ w',
       product.List (Datatypes.S (length data)) req w = Some (Ok [], w') ∧
       product.calls w'
         = (product.calls w
            ++ [product.CalledFind ∅; product.CalledNext; product.CalledErr;
                product.CalledClose])%list ∧
       product.CalledDecode ∉ [product.CalledFind ∅; product.CalledNext;
                               product.CalledErr; product.CalledClose]).
Proof.
  intros Hfind.
  assert (∀ err',
    product.Next {| mock.data := data; mock.index := Z.of_nat (length data);
                    mock.decodeErr := None; mock.err := err' |}
    = (false, {| mock.data := data; mock.index := Z.of_nat (length data);
                 mock.decodeErr := None; mock.err := err' |})) as Hend.
  { intros err'. cbn [product.Next mock.MockCursor_Cursor]. unfold mock.MockCursor_Next.
    cbn [mock.index mock.data]. by rewrite bool_decide_eq_false_2 by lia. }
  split_and!.
  - intros -> ->.
    destruct (List_run_exhausted (Datatypes.S (length data)) req w _ _ _ s1 data
                Hfind (MockCursor_produces data None 0 ltac:(lia)) (Hend None)
                ltac:(lia))
      as (ls & w' & Hlist & Hls & _).
    by exists ls, w'.
  - intros e -> ->.
    destruct (List_run_exhausted (Datatypes.S (length data)) req w _ _ _ s1 data
                Hfind (MockCursor_produces data (Some e) 0 ltac:(lia)) (Hend (Some e))
                ltac:(lia))
      as (ls & w' & Hlist & _).
    by exists w'.
  - intros e -> Hdata. destruct data as [|x data]; [done|].
    destruct (List_run_undecodable (Datatypes.S (length (x :: data))) req w
                (cursorOver (x :: data) (Some e) err)
                (cursorOver (x :: data) (Some e) err)
                {| mock.data := x :: data; mock.index := 1;
                   mock.decodeErr := Some e; mock.err := err |}
                s1 [] models.zero e Hfind (produces_nil _))
      as (w' & Hlist & _); [| |simpl; lia|by exists w'].
    + cbn [product.Next mock.MockCursor_Cursor]. unfold mock.MockCursor_Next.
      cbn [cursorOver mock.index mock.data mock.decodeErr mock.err].
      by rewrite bool_decide_eq_true_2 by (simpl; lia).
    + reflexivity.
  - intros e -> -> ->.
    destruct (List_run_exhausted 1 req w
                (cursorOver [] (Some e) None) (cursorOver [] (Some e) None)
                (cursorOver [] (Some e) None) s1 [] Hfind (produces_nil _))
      as (ls & w' & Hlist & Hls & _ & _ & _ & _ & Hcalls); [reflexivity|simpl; lia|].
    apply Forall2_nil_inv_r in Hls as ->. exists w'.
    split; [exact Hlist|]. split; [exact Hcalls|].
    intros Hin. repeat (apply elem_of_cons in Hin as [Hin|Hin]; [discriminate Hin|]).
    by apply elem_of_nil in Hin.
Qed.

End repository_list_mock.

Lemma List_over_MockCursor_witness :
  (∃ ls w',
     product.List 3 listAll (boot ∅ (withFind (cursorOver twoModels None None, None)
                                       mock.quiet))
       = Some (Ok ls, w') ∧
     Forall2 (λ l p, product.heap w' !! l = Some p) ls twoModels) ∧
  (∃ w',
     product.List 3 listAll
       (boot ∅ (withFind (cursorOver twoModels (Some randomError) None, None) mock.quiet))
       = Some (Fail (Wrap randomError "decoding product"), w')) ∧
  (∃ w',
     product.List 1 listAll
       (boot ∅ (withFind (cursorOver [] (Some randomError) None, None) mock.quiet))
       = Some (Ok [], w') ∧
     product.calls w'
       = [product.CalledFind ∅; product.CalledNext; product.CalledErr;
          product.CalledClose]).
Proof.
  split_and!.
  - destruct (List_over_MockCursor listAll
                (boot ∅ (withFind (cursorOver twoModels None None, None) mock.quiet))
                twoModels None None
                (withFind (cursorOver twoModels None None, None) mock.quiet))
      as (Hok & _); [reflexivity|]. by apply Hok.
  - destruct (List_over_MockCursor listAll
                (boot ∅ (withFind (cursorOver twoModels (Some randomError) None, None)
                           mock.quiet))
                twoModels (Some randomError) None
                (withFind (cursorOver twoModels (Some randomError) None, None) mock.quiet))
      as (_ & _ & Hdecode & _); [reflexivity|]. by apply (Hdecode randomError).
  - destruct (List_over_MockCursor listAll
                (boot ∅ (withFind (cursorOver [] (Some randomError) None, None) mock.quiet))
                [] (Some randomError) None
                (withFind (cursorOver [] (Some randomError) None, None) mock.quiet))
      as (_ & _ & _ & Hempty); [reflexivity|].
    destruct (Hempty randomError eq_refl eq_refl eq_refl) as (w' & Hlist & Hcalls & _).
    exists w'. split; [exact Hlist|exact Hcalls].
Defined.

Lemma List_returns_distinct_pointers_witness :
  ∃ ls w',
    product.List 3 listAll
      (boot {[ 0 := testModel ]}
         (withFind (cursorOver twoModels None None, None) mock.quiet))
      = Some (Ok ls, w') ∧
    Forall2 (λ l p, product.heap w' !! l = Some p) ls twoModels ∧
    NoDup ls ∧
    Forall (λ l, product.heap
                   (boot {[ 0 := testModel ]}
                      (withFind (cursorOver twoModels None None, None) mock.quiet))
                 !! l = None) ls ∧
    product.heap (boot {[ 0 := testModel ]}
                    (withFind (cursorOver twoModels None None, None) mock.quiet))
      ⊆ product.heap w'.
Proof.
  apply (List_returns_distinct_pointers 3 listAll
           (boot {[ 0 := testModel ]}
              (withFind (cursorOver twoModels None None, None) mock.quiet))
           (cursorOver twoModels None None)
           {| mock.data := twoModels; mock.index := 2;
              mock.decodeErr := None; mock.err := None |}
           {| mock.data := twoModels; mock.index := 2;
              mock.decodeErr := None; mock.err := None |}
           (withFind (cursorOver twoModels None None, None) mock.quiet) twoModels).
  - reflexivity.
  - apply (MockCursor_produces twoModels None 0). simpl. lia.
  - reflexivity.
  - reflexivity.
  - simpl. lia.
Defined.

Lemma List_call_sequence_witness :
  (∃ r w',
     product.List 3 listAll
       (boot ∅ (withFind (cursorOver twoModels None None, None) mock.quiet))
       = Some (r, w') ∧
     product.calls w'
       = [product.CalledFind ∅; product.CalledNext; product.CalledDecode;
          product.CalledNext; product.CalledDecode;
          product.CalledNext; product.CalledErr; product.CalledClose]) ∧
  (∃ r w',
     product.List 3 listAll
       (boot ∅ (withFind (cursorOver twoModels (Some randomError) None, None) mock.quiet))
       = Some (r, w') ∧
     product.calls w'
       = [product.CalledFind ∅; product.CalledNext; product.CalledDecode;
          product.CalledClose]).
Proof.
  split.
  - destruct (List_call_sequence 3 listAll
                (boot ∅ (withFind (cursorOver twoModels None None, None) mock.quiet))
                (cursorOver twoModels None None)
                {| mock.data := twoModels; mock.index := 2;
                   mock.decodeErr := None; mock.err := None |}
                {| mock.data := twoModels; mock.index := 2;
                   mock.decodeErr := None; mock.err := None |}
                (withFind (cursorOver twoModels None None, None) mock.quiet) twoModels)
      as (Hend & _).
    + reflexivity.
    + apply (MockCursor_produces twoModels None 0). simpl. lia.
    + simpl. lia.
    + by apply Hend.
  - destruct (List_call_sequence 3 listAll
                (boot ∅ (withFind (cursorOver twoModels (Some randomError) None, None)
                           mock.quiet))
                (cursorOver twoModels (Some randomError) None)
                (cursorOver twoModels (Some randomError) None)
                {| mock.data := twoModels; mock.index := 1;
                   mock.decodeErr := Some randomError; mock.err := None |}
                (withFind (cursorOver twoModels (Some randomError) None, None) mock.quiet)
                [])
      as (_ & Hdecode).
    + reflexivity.
    + constructor.
    + simpl. lia.
    + by apply (Hdecode models.zero randomError).
Defined.

(** ** server: the handlers *)

(** Converting back the dynamic form of every value of a map gives the
    map, when each value converts back to itself. *)
Lemma converted_AsInterface (AsInterface : Value → Dyn) (conv : Dyn → result Value)
    (E : gmap string Value) :
  (∀ k x, E !! k = Some x → conv (AsInterface x) = Ok x) →
  converted conv <$> (AsInterface <$> E) = E.
Proof.
  intros Hrep. apply map_eq; intros k. rewrite !lookup_fmap.
  destruct (E !! k) as [x|] eqn:Hk; simpl; [|done].
  unfold converted. by rewrite (Hrep k x Hk).
Qed.

(** The wire product a model built from [in_] converts to. *)
Lemma to_protobuf_of_model (ord ord' : RangeOrder) (AsInterface : Value → Dyn)
    (conv : Dyn → result Value) (in_ : productcatalog.Product)
    (m : models.Product) (uuid : string) :
  mapper.ProductProtobufToProductModel ord AsInterface in_ = Ok m →
  (∀ k x, entries (productcatalog.Attributes in_) !! k = Some x →
          conv (AsInterface x) = Ok x) →
  mapper.ProductModelToProductProtobuf ord' conv (models.set_Uuid uuid m)
  = Ok {| productcatalog.Uuid := uuid;
          productcatalog.Name := productcatalog.Name in_;
          productcatalog.Description := productcatalog.Description in_;
          productcatalog.Price := productcatalog.Price in_;
          productcatalog.Attributes :=
            Some (entries (productcatalog.Attributes in_)) |}.
Proof.
  rewrite to_model_value. intros [= <-] Hrep.
  rewrite to_protobuf_value.
  - unfold entries at 1; simpl.
    by rewrite (converted_AsInterface AsInterface conv _ Hrep).
  - unfold entries at 1; simpl. intros k p Hk.
    apply lookup_fmap_Some in Hk as (x & <- & Hx). exists x. by apply (Hrep k).
Qed.

Lemma set_Uuid_same (m : models.Product) : models.set_Uuid (models.Uuid m) m = m.
Proof. by destruct m. Qed.

Section handlers.

Context {S C : Type} `{!product.Cursor C} `{!product.Seams S C}.
Context (ord : RangeOrder) (AsInterface : Value → Dyn) (conv : Dyn → result Value).

(** X11. [CreateProduct] answers with the product it was sent, under the
    uuid the generator gave and not the one in the request, as soon as the
    insert reports no error and the attribute values convert back to
    themselves; when the insert reports an error the handler returns it
    wrapped once, as [Create] returned it. *)
Theorem CreateProduct_response (in_ : productcatalog.Product) (w : product.World S)
    (m : models.Product) (uuid : string) (s1 s2 : S) res err :
  mapper.ProductProtobufToProductModel ord AsInterface in_ = Ok m →
  product.uuidProvider (product.store w) = (uuid, s1) →
  product.insertIntoCollection (models.set_Uuid uuid m) s1 = ((res, err), s2) →
  (∀ k x, entries (productcatalog.Attributes in_) !! k = Some x →
          conv (AsInterface x) = Ok x) →
  ∃ w',
    server.CreateProduct ord AsInterface conv in_ w
    = Some (match err with
            | Some cause => Fail (Wrap cause "inserting product")
            | None =>
                Ok {| productcatalog.Uuid := uuid;
                      productcatalog.Name := productcatalog.Name in_;
                      productcatalog.Description := productcatalog.Description in_;
                      productcatalog.Price := productcatalog.Price in_;
                      productcatalog.Attributes :=
                        Some (entries (productcatalog.Attributes in_)) |}
            end, w') ∧
    product.store w' = s2.
Proof.
  intros Hm Huuid Hins Hrep. unfold server.CreateProduct. rewrite Hm.
  unfold product.alloc.
  match goal with |- context [product.Create ?l ?w0] =>
    rewrite (Create_run l w0 m uuid s1 res err s2
               ltac:(cbn [product.heap]; apply lookup_insert_eq) Huuid Hins)
  end.
  cbn [mbind option_bind]. destruct err as [cause|]; [by eexists|].
  cbn [product.heap]. rewrite lookup_insert_eq. cbn [mbind option_bind].
  rewrite (to_protobuf_of_model ord ord AsInterface conv in_ m uuid Hm Hrep).
  by eexists.
Qed.

(** X12. [UpdateProduct] answers with the product it was sent whenever the
    update reports no error, whether or not a document matched, provided
    the attribute values convert back to themselves; the store is asked to
    set the whole model on the document with the request's uuid. When the
    update reports an error the handler returns it as [Update] wrapped it. *)
Theorem UpdateProduct_echoes_request (in_ : productcatalog.Product)
    (w : product.World S) (m : models.Product) (s' : S) res err :
  mapper.ProductProtobufToProductModel ord AsInterface in_ = Ok m →
  product.updateOne {[ "uuid" := product.BString (productcatalog.Uuid in_) ]}
    {[ "$set" := product.BProduct m ]} (product.store w) = ((res, err), s') →
  (∀ k x, entries (productcatalog.Attributes in_) !! k = Some x →
          conv (AsInterface x) = Ok x) →
  ∃ w',
    server.UpdateProduct ord AsInterface conv in_ w
    = Some (match err with
            | Some cause =>
                Fail (Wrap cause ("updating product with uuid "
                                    +:+ quoted (productcatalog.Uuid in_)))
            | None =>
                Ok (productcatalog.set_Attributes
                      (Some (entries (productcatalog.Attributes in_))) in_)
            end, w') ∧
    product.store w' = s'.
Proof.
  intros Hm Hupdate Hrep. unfold server.UpdateProduct. rewrite Hm.
  unfold product.alloc.
  assert (models.Uuid m = productcatalog.Uuid in_) as Huuid.
  { rewrite to_model_value in Hm. by injection Hm as <-. }
  rewrite <- Huuid in *.
  match goal with |- context [product.Update ?l ?w0] =>
    rewrite (Update_run l w0 m res err s'
               ltac:(cbn [product.heap]; apply lookup_insert_eq) Hupdate)
  end.
  cbn [mbind option_bind]. destruct err as [cause|]; [by eexists|].
  cbn [product.heap]. rewrite lookup_insert_eq. cbn [mbind option_bind].
  replace (mapper.ProductModelToProductProtobuf ord conv m)
    with (mapper.ProductModelToProductProtobuf ord conv
            (models.set_Uuid (models.Uuid m) m)) by (by rewrite set_Uuid_same).
  rewrite (to_protobuf_of_model ord ord AsInterface conv in_ m _ Hm Hrep).
  rewrite Huuid. by eexists.
Qed.

(** X13. When the lookup decodes a product, [GetProduct] answers with the
    conversion of exactly that product to the wire, be it a wire product or
    the error of an attribute that does not convert, which then is not
    wrapped any further. *)
Theorem GetProduct_converts_found (req : productcatalog.GetProductRequest)
    (w : product.World S) (p : models.Product) (s' : S) :
  product.findOne {[ "uuid" := product.BString (productcatalog.GetUuid req) ]}
    models.zero (product.store w) = ((p, None), s') →
  ∃ w',
    server.GetProduct ord conv req w
    = Some (mapper.ProductModelToProductProtobuf ord conv p, w') ∧
    product.store w' = s'.
Proof.
  intros Hfind. unfold server.GetProduct.
  rewrite (Get_run req w p None s' Hfind).
  cbn [product.heap]. rewrite lookup_insert_eq. cbn [mbind option_bind].
  by eexists.
Qed.

(** X14. When the lookup fails, the error [GetProduct] returns prints the
    uuid twice: for a product that does not exist, the handler's context
    and then the not-found message; for any other failure, the handler's
    context, the repository's, and the text of the cause. *)
Theorem GetProduct_error_text (req : productcatalog.GetProductRequest)
    (w : product.World S) (p : models.Product) (cause : error) (s' : S) :
  product.findOne {[ "uuid" := product.BString (productcatalog.GetUuid req) ]}
    models.zero (product.store w) = ((p, Some cause), s') →
  ∃ err w',
    server.GetProduct ord conv req w = Some (Fail err, w') ∧
    Error err
    = ("getting product with uuid " +:+ productcatalog.GetUuid req) +:+ ": " +:+
      match cause with
      | ErrNoDocuments =>
          "product with uuid " +:+ quoted (productcatalog.GetUuid req)
            +:+ " does not exist"
      | _ =>
          ("getting product with uuid " +:+ quoted (productcatalog.GetUuid req))
            +:+ ": " +:+ Error cause
      end.
Proof.
  intros Hfind. unfold server.GetProduct.
  rewrite (Get_run req w p (Some cause) s' Hfind).
  destruct cause; by eexists _, _.
Qed.

(** X15. [DeleteProduct] passes on the response of [Delete] when the
    store's delete reports no error; when it reports one, the error the
    handler returns prints the uuid twice, the handler's context before the
    repository's, and then the text of the cause. *)
Theorem DeleteProduct_outcome (req : productcatalog.DeleteProductRequest)
    (w : product.World S) res err (s' : S) :
  product.deleteOne {[ "uuid" := product.BString (productcatalog.DeleteUuid req) ]}
    (product.store w) = ((res, err), s') →
  ∃ r w',
    server.DeleteProduct req w = (r, w') ∧
    product.store w' = s' ∧
    (err = None → r = Ok {| productcatalog.Result := "success" |}) ∧
    (∀ cause, err = Some cause →
       ∃ e, r = Fail e ∧
            Error e
            = ("deleting product with uuid " +:+ productcatalog.DeleteUuid req)
              +:+ ": " +:+
              ("deleting product with uuid " +:+ quoted (productcatalog.DeleteUuid req))
              +:+ ": " +:+ Error cause).
Proof.
  intros Hdel. unfold server.DeleteProduct, product.Delete, product.call.
  rewrite Hdel. destruct err as [cause|]; eexists _, _; split_and!; try done.
  intros ? [= <-]. by eexists.
Qed.

(** X16. When the cursor hands out documents that all decode and then ends
    without error, [ListProducts] answers with the conversion of exactly the
    products decoded, in the order of the cursor: a response with one wire
    product each, or the error of the first product that does not convert. *)
Theorem ListProducts_converts_decoded (fuel : nat)
    (req : productcatalog.ListProductsRequest) (w : product.World S)
    (cur c1 c2 : C) (s1 : S) (ps : list models.Product) :
  product.find ∅ (product.store w) = ((cur, None), s1) →
  produces cur ps c1 →
  product.Next c1 = (false, c2) →
  product.Err c2 = None →
  length ps < fuel →
  ∃ w',
    server.ListProducts ord conv fuel req w
    = Some (mapper.ProductModelListToListProductsResponse ord conv ps, w').
Proof.
  intros Hfind Hps Hnext Herr Hfuel. unfold server.ListProducts.
  destruct (List_run_exhausted fuel req w cur c1 c2 s1 ps Hfind Hps Hnext Hfuel)
    as (ls & w' & -> & Hls & _).
  rewrite Herr. cbn [mbind option_bind].
  apply mapM_Some in Hls. rewrite Hls. cbn [mbind option_bind]. by eexists.
Qed.

(** X17. When the cursor cannot be opened, or ends with an error, or hands
    out a document that does not decode, [ListProducts] returns the error
    of [List] wrapped once more, under the handler's own context. *)
Theorem ListProducts_wraps_failure (fuel : nat)
    (req : productcatalog.ListProductsRequest) (w : product.World S)
    (cur : C) (ferr : option error) (s1 : S) :
  product.find ∅ (product.store w) = ((cur, ferr), s1) →
  (∀ e, ferr = Some e →
     ∃ w', server.ListProducts ord conv fuel req w
           = Some (Fail (Wrap (Wrap e "finding products") "listing products"), w')) ∧
  (∀ ps c1 c2 e,
     ferr = None → produces cur ps c1 →
     product.Next c1 = (false, c2) → product.Err c2 = Some e →
     length ps < fuel →
     ∃ w', server.ListProducts ord conv fuel req w
           = Some (Fail (Wrap (Wrap e "cursor error") "listing products"), w')) ∧
  (∀ ps c1 c2 p e,
     ferr = None → produces cur ps c1 →
     product.Next c1 = (true, c2) → product.Decode c2 models.zero = (p, Some e) →
     length ps < fuel →
     ∃ w', server.ListProducts ord conv fuel req w
           = Some (Fail (Wrap (Wrap e "decoding product") "listing products"), w')).
Proof.
  intros Hfind. split_and!.
  - intros e ->. unfold server.ListProducts, product.List, product.call.
    rewrite Hfind. by eexists.
  - intros ps c1 c2 e -> Hps Hnext Herr Hfuel. unfold server.ListProducts.
    destruct (List_run_exhausted fuel req w cur c1 c2 s1 ps Hfind Hps Hnext Hfuel)
      as (ls & w' & -> & _).
    rewrite Herr. by eexists.
  - intros ps c1 c2 p e -> Hps Hnext Hdecode Hfuel. unfold server.ListProducts.
    destruct (List_run_undecodable fuel req w cur c1 c2 s1 ps p e
                Hfind Hps Hnext Hdecode Hfuel) as (w' & -> & _).
    by eexists.
Qed.

End handlers.

Lemma CreateProduct_response_witness :
  ∃ w',
    server.CreateProduct (C := mock.MockCursor) ascending AsInterface NewValue
      testProduct (boot ∅ mock.quiet)
    = Some (Ok {| productcatalog.Uuid := "uuid";
                  productcatalog.Name := productcatalog.Name testProduct;
                  productcatalog.Description := productcatalog.Description testProduct;
                  productcatalog.Price := productcatalog.Price testProduct;
                  productcatalog.Attributes :=
                    Some (entries (productcatalog.Attributes testProduct)) |}, w') ∧
    product.store w' = mock.quiet.
Proof.
  edestruct (CreateProduct_response (C := mock.MockCursor) ascending AsInterface
               NewValue testProduct (boot ∅ mock.quiet)) as (w' & Hrun & Hstore).
  - apply to_model_value.
  - reflexivity.
  - reflexivity.
  - intros k x _. apply NewValue_AsInterface.
  - exists w'. split; [exact Hrun|exact Hstore].
Defined.

Lemma UpdateProduct_echoes_request_witness :
  ∃ w',
    server.UpdateProduct (C := mock.MockCursor) ascending AsInterface NewValue
      testProduct (boot ∅ mock.quiet)
    = Some (Ok (productcatalog.set_Attributes
                  (Some (entries (productcatalog.Attributes testProduct)))
                  testProduct), w') ∧
    product.store w' = mock.quiet.
Proof.
  edestruct (UpdateProduct_echoes_request (C := mock.MockCursor) ascending AsInterface
               NewValue testProduct (boot ∅ mock.quiet)) as (w' & Hrun & Hstore).
  - apply to_model_value.
  - reflexivity.
  - intros k x _. apply NewValue_AsInterface.
  - exists w'. split; [exact Hrun|exact Hstore].
Defined.

Lemma GetProduct_converts_found_witness :
  ∃ w',
    server.GetProduct ascending NewValue getUuid
      (boot ∅ (withFindOne (λ _, (mixedModel, None)) mock.quiet))
    = Some (mapper.ProductModelToProductProtobuf ascending NewValue mixedModel, w') ∧
    product.store w' = withFindOne (λ _, (mixedModel, None)) mock.quiet.
Proof.
  apply (GetProduct_converts_found ascending NewValue getUuid
           (boot ∅ (withFindOne (λ _, (mixedModel, None)) mock.quiet)) mixedModel
           (withFindOne (λ _, (mixedModel, None)) mock.quiet)).
  reflexivity.
Defined.

Lemma GetProduct_error_text_witness :
  ∃ err w',
    server.GetProduct ascending NewValue getUuid (boot ∅ mock.quiet)
      = Some (Fail err, w') ∧
    Error err
    = ("getting product with uuid " +:+ "uuid") +:+ ": " +:+
      ("product with uuid " +:+ quoted "uuid" +:+ " does not exist").
Proof.
  apply (GetProduct_error_text ascending NewValue getUuid (boot ∅ mock.quiet)
           models.zero ErrNoDocuments mock.quiet).
  reflexivity.
Defined.

Lemma DeleteProduct_outcome_witness :
  ∃ r w',
    server.DeleteProduct (C := mock.MockCursor) deleteUuid
      (boot ∅ (withDelete (None, Some randomError) mock.quiet)) = (r, w') ∧
    ∃ e, r = Fail e ∧
         Error e
         = ("deleting product with uuid " +:+ "uuid") +:+ ": " +:+
           ("deleting product with uuid " +:+ quoted "uuid") +:+ ": " +:+ "random error".
Proof.
  destruct (DeleteProduct_outcome (C := mock.MockCursor) deleteUuid
              (boot ∅ (withDelete (None, Some randomError) mock.quiet))
              None (Some randomError) (withDelete (None, Some randomError) mock.quiet))
    as (r & w' & Hrun & _ & _ & Hfail); [reflexivity|].
  exists r, w'. split; [exact Hrun|]. exact (Hfail randomError eq_refl).
Defined.

Lemma ListProducts_converts_decoded_witness :
  ∃ w',
    server.ListProducts ascending NewValue 3 listAll
      (boot ∅ (withFind (cursorOver twoModels None None, None) mock.quiet))
    = Some (mapper.ProductModelListToListProductsResponse ascending NewValue twoModels,
            w').
Proof.
  apply (ListProducts_converts_decoded ascending NewValue 3 listAll
           (boot ∅ (withFind (cursorOver twoModels None None, None) mock.quiet))
           (cursorOver twoModels None None)
           {| mock.data := twoModels; mock.index := 2;
              mock.decodeErr := None; mock.err := None |}
           {| mock.data := twoModels; mock.index := 2;
              mock.decodeErr := None; mock.err := None |}
           (withFind (cursorOver twoModels None None, None) mock.quiet) twoModels).
  - reflexivity.
  - apply (MockCursor_produces twoModels None 0). simpl. lia.
  - reflexivity.
  - reflexivity.
  - simpl. lia.
Defined.

Lemma ListProducts_wraps_failure_witness :
  ∃ w',
    server.ListProducts ascending NewValue 1 listAll
      (boot ∅ (withFind (mock.noCursor, Some randomError) mock.quiet))
    = Some (Fail (Wrap (Wrap randomError "finding products") "listing products"), w').
Proof.
  destruct (ListProducts_wraps_failure ascending NewValue 1 listAll
              (boot ∅ (withFind (mock.noCursor, Some randomError) mock.quiet))
              mock.noCursor (Some randomError)
              (withFind (mock.noCursor, Some randomError) mock.quiet))
    as (Hfind & _); [reflexivity|].
  by apply Hfind.
Defined.

(** ** config *)

Section configuration.

Context {E : Type} `{!config.Seams E}.

(** X18. [Read] loads the one file it is given. If loading fails it
    returns that error under its own message and leaves the environment as
    the load left it, without processing it. Otherwise it processes the
    environment with no prefix into a configuration that starts empty, and
    returns either that configuration or the processing error under its own
    message. *)
Theorem Read_outcome (envFilePath : string) (env env1 : E) (lerr : option error) :
  config.godotenvLoad [envFilePath] env = (lerr, env1) →
  (∀ e, lerr = Some e →
     config.Read envFilePath env = (Fail (Wrap e "loading env vars"), env1)) ∧
  (∀ cfg perr env2,
     lerr = None →
     config.envconfigProcess EmptyString config.zero env1 = ((cfg, perr), env2) →
     config.Read envFilePath env
     = (match perr with
        | Some e => Fail (Wrap e "processing env vars")
        | None => Ok cfg
        end, env2)).
Proof.
  intros Hload. unfold config.Read. rewrite Hload. split.
  - by intros e ->.
  - intros cfg perr env2 -> Hprocess. rewrite Hprocess. by destruct perr.
Qed.

End configuration.

Lemma Read_outcome_witness :
  config.Read ".env"
    {| loadAnswer := Some randomError; processAnswer := (localConfig, None);
       loaded := [] |}
  = (Fail (Wrap randomError "loading env vars"),
     {| loadAnswer := Some randomError; processAnswer := (localConfig, None);
        loaded := [".env"] |}) ∧
  config.Read ".env"
    {| loadAnswer := None; processAnswer := (localConfig, None); loaded := [] |}
  = (Ok localConfig,
     {| loadAnswer := None; processAnswer := (localConfig, None);
        loaded := [".env"] |}).
Proof.
  split.
  - destruct (Read_outcome ".env"
                {| loadAnswer := Some randomError; processAnswer := (localConfig, None);
                   loaded := [] |}
                {| loadAnswer := Some randomError; processAnswer := (localConfig, None);
                   loaded := [".env"] |} (Some randomError)) as (Hload & _);
      [reflexivity|]. by apply Hload.
  - destruct (Read_outcome ".env"
                {| loadAnswer := None; processAnswer := (localConfig, None);
                   loaded := [] |}
                {| loadAnswer := None; processAnswer := (localConfig, None);
                   loaded := [".env"] |} None) as (_ & Hprocess); [reflexivity|].
    by apply (Hprocess localConfig None).
Defined.
